(** * Vacuum world simulator (practical_02/vacuum_world.py)

    A shallow embedding of the experiment runner [run_experiment], of the
    reference components [BasicVacuumWorld], [CleanFloorEvaluator],
    [SuckyAgent], [RandomAgent], and of the part of [main] that drives them,
    followed by the properties of the simulation loop and of its
    fault-classification protocol.

    Python objects are mutable: every method is modelled as a function from
    the receiver's state to the receiver's new state paired with either a
    returned value or a raised exception. *)

From stdpp Require Import gmap strings list fin_maps.
From Stdlib Require Import ZArith Lia Ascii.
From Equations Require Import Equations.

#[local] Set Warnings "-clear-no-such-hyp".

Local Open Scope string_scope.
Local Open Scope Z_scope.
Local Open Scope list_scope.

(** ** Python values and exceptions *)

(** The Python values that flow through the program: the actions of the
    agents ([None] for the agents whose [decide] has no return statement),
    and the arguments carried by the exceptions.  The only lists the
    program builds are the token lists of the command line. *)
Inductive pyval : Type :=
  | PyNone
  | PyBool (b : bool)
  | PyInt (z : Z)
  | PyStr (s : string)
  | PyList (items : list string).

#[global] Instance pyval_eq_dec : EqDecision pyval.
Proof. solve_decision. Defined.

(** The exception classes that matter for the [except] clauses of the
    program.  [SystemExit] and [KeyboardInterrupt] derive from
    [BaseException] only; [UnicodeError] derives from [ValueError]; all the
    others derive directly or indirectly from [Exception]. *)
Inductive exc_class : Type :=
  | ValueError
  | UnicodeError
  | KeyError
  | IndexError
  | TypeError
  | AttributeError
  | RuntimeError
  | SystemExit
  | KeyboardInterrupt.

(** [class ExperimentError(Exception)] with its two attributes. *)
Inductive exn : Type :=
  | Exc (c : exc_class) (args : list pyval)
  | ExperimentError (component : string) (cause : exn).

(** [isinstance(e, ValueError)], what [except ValueError] tests. *)
Definition isinstance_ValueError (e : exn) : bool :=
  match e with
  | Exc ValueError _ | Exc UnicodeError _ => true
  | _ => false
  end.

(** [isinstance(e, Exception)], what [except Exception] tests. *)
Definition isinstance_Exception (e : exn) : bool :=
  match e with
  | Exc SystemExit _ | Exc KeyboardInterrupt _ => false
  | _ => true
  end.

(** The outcome of a call: it returns a value or raises. *)
Inductive result (A : Type) : Type :=
  | Ret (v : A)
  | Raise (e : exn).
Arguments Ret {A} v.
Arguments Raise {A} e.

#[global] Instance result_ret : MRet result := fun A v => Ret v.

#[global] Instance result_bind : MBind result := fun A B k r =>
  match r with
  | Ret v => k v
  | Raise e => Raise e
  end.

(** A method on an object whose state has type [S]. *)
Definition Py (S A : Type) : Type := S -> S * result A.

#[global] Instance py_ret {S : Type} : MRet (Py S) := fun A v s => (s, Ret v).

#[global] Instance py_bind {S : Type} : MBind (Py S) := fun A B k m s =>
  match m s with
  | (s', Ret v) => k v s'
  | (s', Raise e) => (s', Raise e)
  end.

(** [try: m  except ...: raise h(e)]: every exception leaving [m] is mapped
    through the handler chain [h] (which re-raises what no clause catches). *)
Definition try_except {S A : Type} (m : Py S A) (h : exn -> exn) : Py S A :=
  fun s => match m s with
           | (s', Ret v) => (s', Ret v)
           | (s', Raise e) => (s', Raise (h e))
           end.

(** [for x in xs: body(x)] *)
Fixpoint for_each {S X : Type} (xs : list X) (body : X -> Py S unit) : Py S unit :=
  match xs with
  | [] => mret tt
  | x :: xs' => body x ;; for_each xs' body
  end.

(** [range(lo, hi)] *)
Definition range (lo hi : Z) : list Z := seqZ lo (hi - lo).

(** ** Strings *)

(** [str.lower] on the ASCII letters.  Bytes above 127 (the UTF-8 encoding
    of the other characters) are left alone.  No non-ASCII character
    lower-cases to one of the tokens of [DIRTY_VALUES] or [CLEAN_VALUES], so
    the membership tests on the lower-cased token are those of the code;
    what differs from [str.lower] is the text of the lower-cased token
    itself when it has a non-ASCII upper-case letter, which is kept here. *)
Definition lower_ascii (c : ascii) : ascii :=
  let n := N_of_ascii c in
  if ((65 <=? n) && (n <=? 90))%N then ascii_of_N (n + 32) else c.

Fixpoint lower (s : string) : string :=
  match s with
  | EmptyString => EmptyString
  | String c s' => String (lower_ascii c) (lower s')
  end.

(** [x in xs] for a tuple or list of strings *)
Definition str_in (x : string) (xs : list string) : bool :=
  existsb (String.eqb x) xs.
Arguments str_in : simpl never.

(** ** Module-level constants *)

Definition NUM_TRIALS : Z := 1000.
Definition DIRTY_VALUES : list string := ["y"; "yes"; "t"; "true"; "dirty"].
Definition CLEAN_VALUES : list string := ["n"; "no"; "f"; "false"; "clean"].
Definition MSG_BAD_DIRT_STATUS_STR (s : string) : string :=
  "Invalid dirt status string: " +:+ s.

(** The records that reach the logging sink.  The root logger has the only
    handler, and the ['vacuum_world'] logger propagates to it, so one list
    holds them all in emission order. *)
Inductive LogRecord : Type :=
  | LOG_HELLO
  | LOG_AGENT_DECISION (t : Z) (decision : pyval)
  | LOG_COMPLETE
  | LOG_EXPERIMENT_ERROR (component : string) (cause : exn)
  | LOG_ENVIRONMENT_INIT_ERROR (arg : pyval)
  | LOG_SCORE (score : Z).

(** ** The three capability contracts

    The components are duck-typed in the source: any class with the right
    methods will do.  Each contract is a record of methods over a carrier
    (the instance's attributes).  Actions are arbitrary Python values: an
    agent may return anything. *)

Record Environment (Obs St : Type) : Type := {
  env_self : Type;
  (** the constructor, called with the keyword arguments of the command line *)
  env_new : gmap string (list string) -> result env_self;
  (** the [observable_state] property *)
  env_observable_state : Py env_self Obs;
  env_update : pyval -> Py env_self unit;
  (** the [state] property *)
  env_state : Py env_self St
}.
Arguments env_self {Obs St} _.
Arguments env_new {Obs St} _ _.
Arguments env_observable_state {Obs St} _ _.
Arguments env_update {Obs St} _ _ _.
Arguments env_state {Obs St} _ _.

Record Agent (Obs : Type) : Type := {
  agent_self : Type;
  agent_new : result agent_self;
  agent_decide : Obs -> Py agent_self pyval
}.
Arguments agent_self {Obs} _.
Arguments agent_new {Obs} _.
Arguments agent_decide {Obs} _ _ _.

Record Evaluator (St : Type) : Type := {
  eval_self : Type;
  eval_new : result eval_self;
  eval_update : St -> Py eval_self unit;
  (** the [score] property *)
  eval_score : eval_self -> Z
}.
Arguments eval_self {St} _.
Arguments eval_new {St} _.
Arguments eval_update {St} _ _ _.
Arguments eval_score {St} _ _.

(** ** The experiment runner *)

(** The calls [run_experiment] makes on the components. *)
Inductive Call : Type :=
  | ObservableState
  | Decide
  | Update
  | State
  | EvaluatorUpdate.

(** One call made during step [ev_step], and the exception it raised if it
    did not return. *)
Record Event : Type := Called {
  ev_call : Call;
  ev_step : Z;
  ev_raised : option exn
}.

#[global] Instance Call_eq_dec : EqDecision Call.
Proof. solve_decision. Defined.

Definition raised {A : Type} (r : result A) : option exn :=
  match r with
  | Ret _ => None
  | Raise e => Some e
  end.

(** Everything [run_experiment] can touch: the three objects and the log.
    [w_calls] is a ghost field, the history of the calls made so far. *)
Record World (E A V : Type) : Type := {
  w_env : E;
  w_agent : A;
  w_eval : V;
  w_log : list LogRecord;
  w_calls : list Event
}.
Arguments w_env {E A V} _.
Arguments w_agent {E A V} _.
Arguments w_eval {E A V} _.
Arguments w_log {E A V} _.
Arguments w_calls {E A V} _.

(** The handlers around [agent.decide(environment.observable_state)]:
    [except ValueError] first, then [except Exception]; anything else
    propagates as it is. *)
Definition classify_decide (e : exn) : exn :=
  if isinstance_ValueError e then ExperimentError "environment" e
  else if isinstance_Exception e then ExperimentError "agent" e
  else e.

(** The handlers around [environment.update(decision)]. *)
Definition classify_update (e : exn) : exn :=
  if isinstance_ValueError e then ExperimentError "agent" e
  else if isinstance_Exception e then ExperimentError "environment" e
  else e.

Section Runner.
Context {Obs St : Type}.
Variable environment : Environment Obs St.
Variable agent : Agent Obs.
Variable evaluator : Evaluator St.

Abbreviation W := (World (env_self environment) (agent_self agent) (eval_self evaluator)).

Definition record (c : Call) (t : Z) {A : Type} (r : result A) (w : W) : list Event :=
  w_calls w ++ [Called c t (raised r)].

(** A method call on [environment] *)
Definition on_environment {A : Type} (c : Call) (t : Z)
    (m : Py (env_self environment) A) : Py W A := fun w =>
  let '(e', r) := m (w_env w) in
  ({| w_env := e'; w_agent := w_agent w; w_eval := w_eval w;
      w_log := w_log w; w_calls := record c t r w |}, r).

(** A method call on [agent] *)
Definition on_agent {A : Type} (c : Call) (t : Z)
    (m : Py (agent_self agent) A) : Py W A := fun w =>
  let '(a', r) := m (w_agent w) in
  ({| w_env := w_env w; w_agent := a'; w_eval := w_eval w;
      w_log := w_log w; w_calls := record c t r w |}, r).

(** A method call on [evaluator] *)
Definition on_evaluator {A : Type} (c : Call) (t : Z)
    (m : Py (eval_self evaluator) A) : Py W A := fun w =>
  let '(v', r) := m (w_eval w) in
  ({| w_env := w_env w; w_agent := w_agent w; w_eval := v';
      w_log := w_log w; w_calls := record c t r w |}, r).

(** [logger.info(...)] *)
Definition logger_info (l : LogRecord) : Py W unit := fun w =>
  ({| w_env := w_env w; w_agent := w_agent w; w_eval := w_eval w;
      w_log := w_log w ++ [l]; w_calls := w_calls w |}, Ret tt).

(** The body of the [for] loop of [run_experiment]. *)
Definition step (t : Z) : Py W unit :=
  decision ← try_except
    (observation ← on_environment ObservableState t (env_observable_state environment);
     on_agent Decide t (agent_decide agent observation))
    classify_decide;
  logger_info (LOG_AGENT_DECISION t decision);;
  try_except
    (on_environment Update t (env_update environment decision))
    classify_update;;
  state ← on_environment State t (env_state environment);
  on_evaluator EvaluatorUpdate t (eval_update evaluator state).

Definition run_experiment : Py W unit :=
  for_each (range 1 1001) step.

(** [main], from the point where the three classes are loaded.  The
    result is the value [main] returns ([None] or [1]), or the exception
    that leaves it. *)
(** The part of [main] under [# Report results]. *)
Definition report_results (v : eval_self evaluator) : Py (list LogRecord) (option Z) :=
  fun log => (log ++ [LOG_SCORE (eval_score evaluator v)], Ret None).

(** The world in which [main] starts the loop. *)
Definition initial_world (e : env_self environment) (a : agent_self agent)
    (v : eval_self evaluator) (log : list LogRecord) : W :=
  {| w_env := e; w_agent := a; w_eval := v; w_log := log; w_calls := [] |}.

Definition main (environment_args : gmap string (list string))
    : Py (list LogRecord) (option Z) := fun log =>
  let log := log ++ [LOG_HELLO] in
  match eval_new evaluator with
  | Raise e => (log, Raise e)
  | Ret v =>
  match agent_new agent with
  | Raise e => (log, Raise e)
  | Ret a =>
  match env_new environment environment_args with
  | Raise (Exc c args) =>
      if isinstance_ValueError (Exc c args) then
        match args with
        | arg :: _ => (log ++ [LOG_ENVIRONMENT_INIT_ERROR arg], Ret (Some 1))
        | [] => (log, Raise (Exc IndexError [PyStr "tuple index out of range"]))
        end
      else (log, Raise (Exc c args))
  | Raise e => (log, Raise e)
  | Ret e =>
      match run_experiment (initial_world e a v log) with
      | (w', Ret _) =>
          report_results (w_eval w') (w_log w' ++ [LOG_COMPLETE])
      | (w', Raise (ExperimentError component cause)) =>
          report_results (w_eval w')
            (w_log w' ++ [LOG_EXPERIMENT_ERROR component cause])
      | (w', Raise e) => (w_log w', Raise e)
      end
  end end end.
End Runner.

(** ** The reference environment *)

(** What [state] returns: a dictionary with the keys ["agent_location"]
    and ["dirt_status"]. *)
Record EnvState : Type := {
  st_agent_location : string;
  st_dirt_status : gmap string bool
}.

(** What [observable_state] returns: a dictionary with the keys
    ["agent_location"] and ["is_dirty"]. *)
Record Observation : Type := {
  obs_agent_location : string;
  obs_is_dirty : bool
}.

(** [{k: v for k, v in pairs}]: later pairs overwrite earlier ones. *)
Definition dict_of (pairs : list (string * bool)) : gmap string bool :=
  fold_left (fun d kv => <[kv.1 := kv.2]> d) pairs ∅.

Module BasicVacuumWorld.

(** The instance attributes [_agent_location] and [_dirt_status]. *)
Record self : Type := {
  _agent_location : string;
  _dirt_status : gmap string bool
}.

Definition locations : list string := ["A"; "B"].
Definition actions : list string := ["LEFT"; "RIGHT"; "SUCK"].

Definition _convert_to_dirt_status (string : string) : result bool :=
  let string := lower string in
  if str_in string DIRTY_VALUES then Ret true
  else if str_in string CLEAN_VALUES then Ret false
  else Raise (Exc ValueError [PyStr (MSG_BAD_DIRT_STATUS_STR string)]).
Arguments _convert_to_dirt_status : simpl never.

(** [zip(locations, map(_convert_to_dirt_status, dirt_status))], consumed
    by the dictionary comprehension: [map] and [zip] are lazy, so a token is
    converted when its pair is requested, after a location was taken for
    it, and the first bad token raises. *)
Fixpoint zip_converted (locs tokens : list string) : result (list (string * bool)) :=
  match locs, tokens with
  | location :: locs', token :: tokens' =>
      status ← _convert_to_dirt_status token;
      rest ← zip_converted locs' tokens';
      mret ((location, status) :: rest)
  | _, _ => mret []
  end.

Definition __init__ (agent_location dirt_status : list string) : result self :=
  if negb (length agent_location =? 1)%nat then
    Raise (Exc ValueError [PyList agent_location])
  else match agent_location with
  | [] => Raise (Exc IndexError [PyStr "list index out of range"])
  | agent_location :: _ =>
      if negb (str_in agent_location locations) then
        Raise (Exc ValueError [PyStr agent_location])
      else if negb (length dirt_status =? length locations)%nat then
        Raise (Exc ValueError [PyList dirt_status])
      else
        dirt_status_tuples ← zip_converted locations dirt_status;
        mret {| _dirt_status := dict_of dirt_status_tuples;
                _agent_location := agent_location |}
  end.

(** The constructor as [main] calls it, with keyword arguments: a missing
    argument takes its default, an unknown name is a [TypeError]. *)
Definition new (kwargs : gmap string (list string)) : result self :=
  if bool_decide (dom kwargs ⊆ ({["agent_location"; "dirt_status"]} : gset string)) then
    __init__ (default ["A"] (kwargs !! "agent_location"))
             (default ["t"; "t"] (kwargs !! "dirt_status"))
  else Raise (Exc TypeError [PyStr "__init__() got an unexpected keyword argument"]).

Definition state : Py self EnvState := fun self =>
  (self, Ret {| st_agent_location := _agent_location self;
                st_dirt_status := _dirt_status self |}).

(** [self._dirt_status[self._agent_location]] raises [KeyError] on a
    missing key. *)
Definition observable_state : Py self Observation := fun self =>
  match _dirt_status self !! _agent_location self with
  | Some is_dirty =>
      (self, Ret {| obs_agent_location := _agent_location self;
                    obs_is_dirty := is_dirty |})
  | None => (self, Raise (Exc KeyError [PyStr (_agent_location self)]))
  end.

(** [action == s] for a string literal [s]: only a string can be equal. *)
Definition eq_str (action : pyval) (s : string) : bool :=
  match action with
  | PyStr a => String.eqb a s
  | _ => false
  end.

Definition update (action : pyval) : Py self unit := fun self =>
  if eq_str action "SUCK" then
    ({| _agent_location := _agent_location self;
        _dirt_status := <[_agent_location self := false]> (_dirt_status self) |},
     Ret tt)
  else if eq_str action "RIGHT" then
    ({| _agent_location := "B"; _dirt_status := _dirt_status self |}, Ret tt)
  else if eq_str action "LEFT" then
    ({| _agent_location := "A"; _dirt_status := _dirt_status self |}, Ret tt)
  else (self, Raise (Exc ValueError [action])).

Definition class : Environment Observation EnvState := {|
  env_self := self;
  env_new := new;
  env_observable_state := observable_state;
  env_update := update;
  env_state := state
|}.

End BasicVacuumWorld.

(** ** The reference evaluator *)

Module CleanFloorEvaluator.

(** The instance attribute [_score]. *)
Record self : Type := { _score : Z }.

Definition __init__ : result self := Ret {| _score := 0 |}.

(** [list(d.values())] *)
Definition values (d : gmap string bool) : list bool := (map_to_list d).*2.

(** [l.count(False)] *)
Definition count_False (l : list bool) : Z :=
  Z.of_nat (length (filter (fun b => b = false) l)).

Definition update (state : EnvState) : Py self unit := fun self =>
  ({| _score := _score self + count_False (values (st_dirt_status state)) |}, Ret tt).

Definition score (self : self) : Z := _score self.

Definition class : Evaluator EnvState := {|
  eval_self := self;
  eval_new := __init__;
  eval_update := update;
  eval_score := score
|}.

End CleanFloorEvaluator.

(** ** The agents *)

(** The agents have no attributes. *)
Module SuckyAgent.

Definition decide {Obs : Type} (_ : Obs) : Py unit pyval := fun self =>
  (self, Ret (PyStr "SUCK")).

Definition class (Obs : Type) : Agent Obs := {|
  agent_self := unit;
  agent_new := Ret tt;
  agent_decide := decide
|}.

End SuckyAgent.

(** [RandomAgent.decide] has a docstring and no statement: it returns
    [None]. *)
Module RandomAgent.

Definition decide {Obs : Type} (_ : Obs) : Py unit pyval := fun self =>
  (self, Ret PyNone).

Definition class (Obs : Type) : Agent Obs := {|
  agent_self := unit;
  agent_new := Ret tt;
  agent_decide := decide
|}.

End RandomAgent.

(** ** Fabricated components

    Test doubles for the fault-attribution properties: an agent that plays
    a script and an environment whose [update] fails. *)

(** An agent that plays a script: at each call of [decide] it takes the
    next entry, returns it if it is an action and raises it if it is an
    exception.  When the script is over it returns ['SUCK']. *)
Module ScriptedAgent.

Definition decide {Obs : Type} (_ : Obs) : Py (list (result pyval)) pyval :=
  fun script =>
    match script with
    | [] => ([], Ret (PyStr "SUCK"))
    | entry :: script' => (script', entry)
    end.

Definition class (Obs : Type) (script : list (result pyval)) : Agent Obs := {|
  agent_self := list (result pyval);
  agent_new := Ret script;
  agent_decide := decide
|}.

End ScriptedAgent.

(** The reference environment with an [update] that raises [e] whatever
    the action. *)
Module BrokenVacuumWorld.

Definition update (e : exn) (action : pyval) : Py BasicVacuumWorld.self unit :=
  fun self => (self, Raise e).

Definition class (e : exn) : Environment Observation EnvState := {|
  env_self := BasicVacuumWorld.self;
  env_new := BasicVacuumWorld.new;
  env_observable_state := BasicVacuumWorld.observable_state;
  env_update := update e;
  env_state := BasicVacuumWorld.state
|}.

End BrokenVacuumWorld.

(** The environment [main] builds by default, or from the command line
    [--env-agent-location A --env-dirt-status t t]: the agent at [A], both
    locations dirty. *)
Definition dirty_world : BasicVacuumWorld.self :=
  {| BasicVacuumWorld._agent_location := "A";
     BasicVacuumWorld._dirt_status := dict_of [("A", true); ("B", true)] |}.

(** [dirty_world] once location [A] has been cleaned. *)
Definition cleaned_world : BasicVacuumWorld.self :=
  {| BasicVacuumWorld._agent_location := "A";
     BasicVacuumWorld._dirt_status := dict_of [("A", false); ("B", true)] |}.

(** A world where the scripted agent faces the reference environment in
    its initial state [A], dirty, dirty, and a new reference evaluator. *)
Definition scripted_world (script : list (result pyval))
    : World BasicVacuumWorld.self (list (result pyval)) CleanFloorEvaluator.self :=
  initial_world BasicVacuumWorld.class (ScriptedAgent.class Observation script)
    CleanFloorEvaluator.class dirty_world script
    {| CleanFloorEvaluator._score := 0 |} [].

(** ** Vocabulary of the properties *)

(** A call of step [t] that returned. *)
Definition returned (c : Call) (t : Z) : Event := Called c t None.

(** The calls of a complete step, in the order of the loop body. *)
Definition cycle (t : Z) : list Event :=
  [returned ObservableState t; returned Decide t; returned Update t;
   returned State t; returned EvaluatorUpdate t].

(** The calls of step [t] that come before call [c]. *)
Definition calls_before (c : Call) (t : Z) : list Event :=
  match c with
  | ObservableState => []
  | Decide => take 1 (cycle t)
  | Update => take 2 (cycle t)
  | State => take 3 (cycle t)
  | EvaluatorUpdate => take 4 (cycle t)
  end.

(** What leaves [run_experiment] when call [c] raises [e]: the first two
    calls are inside the first [try], [update] is inside the second one, and
    the last two are outside any [try]. *)
Definition classify (c : Call) (e : exn) : exn :=
  match c with
  | ObservableState | Decide => classify_decide e
  | Update => classify_update e
  | State | EvaluatorUpdate => e
  end.

(** The number of calls of [c] in a history that returned. *)
Definition completed (c : Call) (calls : list Event) : nat :=
  length (filter (fun ev => ev_call ev = c ∧ ev_raised ev = None) calls).

(** No call of a history raised. *)
Definition no_call_raised (calls : list Event) : Prop :=
  Forall (fun ev => ev_raised ev = None) calls.

(** The decisions logged by the runner. *)
Definition is_decision (l : LogRecord) : Prop :=
  match l with
  | LOG_AGENT_DECISION _ _ => True
  | _ => False
  end.

(** The final score record is absent from a log that has a fault record. *)
Definition no_score_after_fault (log : list LogRecord) : Prop :=
  (∃ component cause, LOG_EXPERIMENT_ERROR component cause ∈ log) →
  ∀ score, LOG_SCORE score ∉ log.

(** The states of the reference environment a program can reach: those the
    constructor returns, and those [update] leaves behind, whether it
    returns or raises. *)
Inductive reachable : BasicVacuumWorld.self → Prop :=
  | reachable_init agent_location dirt_status self :
      BasicVacuumWorld.__init__ agent_location dirt_status = Ret self →
      reachable self
  | reachable_update self action self' r :
      reachable self →
      BasicVacuumWorld.update action self = (self', r) →
      reachable self'.

(** The sum of a list of integers. *)
Definition sum (l : list Z) : Z := foldr Z.add 0 l.

(** The number of locations of a state whose dirt status is [False]. *)
Definition clean_locations (state : EnvState) : Z :=
  Z.of_nat (size (filter (fun kv : string * bool => kv.2 = false)
                         (st_dirt_status state))).

(** The keyword arguments [--env-agent-location] and [--env-dirt-status]
    of the command line give. *)
Definition environment_args (agent_location dirt_status : list string)
    : gmap string (list string) :=
  <["agent_location" := agent_location]> (<["dirt_status" := dirt_status]> ∅).

(** ** The agent stubs *)

(** [RationalAgent.decide], like [RandomAgent.decide], has a docstring and
    no statement: it returns [None]. *)
Module RationalAgent.

Definition decide {Obs : Type} (_ : Obs) : Py unit pyval := fun self =>
  (self, Ret PyNone).

Definition class (Obs : Type) : Agent Obs := {|
  agent_self := unit;
  agent_new := Ret tt;
  agent_decide := decide
|}.

End RationalAgent.

(** ** Command-line arguments of the environment *)

(** [s.startswith(p)] *)
Definition startswith (s p : string) : bool := String.prefix p s.

(** [s[n:]]: the whole of [s] is dropped when it is shorter than [n]. *)
Fixpoint slice_from (n : nat) (s : string) : string :=
  match n, s with
  | O, _ => s
  | S n', String _ s' => slice_from n' s'
  | S _, EmptyString => EmptyString
  end.

(** [s.replace(old, new)] for one-character [old] and [new] *)
Fixpoint replace (old new : ascii) (s : string) : string :=
  match s with
  | EmptyString => EmptyString
  | String c s' =>
      String (if Ascii.eqb c old then new else c) (replace old new s')
  end.

(** The inner [while] loop of [_extract_environment_args]: the index [i] of
    the first element of [rest] that starts with ['--env-'], or
    [len(rest)] when there is none. *)
Fixpoint next_env_index (rest : list string) : nat :=
  match rest with
  | [] => 0
  | element :: rest' =>
      if startswith element "--env-" then 0 else S (next_env_index rest')
  end.

(** The outer [while] loop, on the arguments left and the dictionary
    built so far. *)
Equations? extract_loop (args : list string)
    (environment_args : gmap string (list string))
    : result (gmap string (list string)) by wf (length args) lt :=
  extract_loop [] environment_args := Ret environment_args;
  extract_loop (arg :: rest) environment_args :=
    if negb (startswith arg "--env-") then Raise (Exc ValueError [PyStr arg])
    else
      let param_name := replace "-" "_" (slice_from 6 arg) in
      match rest with
      | _ :: _ =>
          let i := next_env_index rest in
          extract_loop (drop i rest) (<[param_name := take i rest]> environment_args)
      | [] => extract_loop [] (<[param_name := []]> environment_args)
      end.
Proof. all: simpl; try rewrite length_drop; lia. Qed.

Definition _extract_environment_args (args : list string)
    : result (gmap string (list string)) :=
  extract_loop args ∅.

(** ** Loading the classes by name *)

(** What [_load_class] can raise: [ImportError] with its [name] attribute,
    [_ClassNotFoundError], or whatever else leaves
    [importlib.import_module]. *)
Inductive load_exn : Type :=
  | ImportError (name : pyval)
  | _ClassNotFoundError
  | OtherError (e : exn).

Inductive loaded (C : Type) : Type :=
  | Loaded (c : C)
  | LoadRaise (e : load_exn).
Arguments Loaded {C} c.
Arguments LoadRaise {C} e.

(** The records [_try_load_class] logs. *)
Inductive LoaderRecord : Type :=
  | LOG_MODULE_NOT_LOADED (name : pyval)
  | LOG_CLASS_NOT_FOUND (role import_path : string).

(** [s.split(sep)] for a one-character separator: never an empty list. *)
Fixpoint split (sep : ascii) (s : string) : list string :=
  match s with
  | EmptyString => [EmptyString]
  | String c s' =>
      if Ascii.eqb c sep then EmptyString :: split sep s'
      else match split sep s' with
           | segment :: segments => String c segment :: segments
           | [] => [String c EmptyString]
           end
  end.

(** [sep.join(segments)] *)
Fixpoint join (sep : string) (segments : list string) : string :=
  match segments with
  | [] => EmptyString
  | [segment] => segment
  | segment :: segments' => segment +:+ sep +:+ join sep segments'
  end.

Section Loader.
(** The attribute values of the modules, the classes among them. *)
Variable C : Type.
(** [importlib.import_module]: a module is seen as the dictionary of its
    attributes. *)
Variable import_module : string -> loaded (gmap string C).
(** [globals()] of the program *)
Variable globals : gmap string C.

Definition _load_class (agent_path : string) : loaded C :=
  let agent_path_segments := split "." agent_path in
  let agent_module_name := join "." (removelast agent_path_segments) in
  match last agent_path_segments with
  | None => LoadRaise (OtherError (Exc IndexError [PyStr "list index out of range"]))
  | Some agent_class_name =>
      if negb (String.eqb agent_module_name "") then
        match import_module agent_module_name with
        | LoadRaise e => LoadRaise e
        | Loaded agent_module =>
            match agent_module !! agent_class_name with
            | Some agent_class => Loaded agent_class
            | None => LoadRaise _ClassNotFoundError
            end
        end
      else
        match globals !! agent_class_name with
        | Some agent_class => Loaded agent_class
        | None => LoadRaise _ClassNotFoundError
        end
  end.

(** [sys.exit(1)] raises [SystemExit(1)]. *)
Definition _try_load_class (import_path role : string)
    : Py (list LoaderRecord) C := fun log =>
  match _load_class import_path with
  | Loaded _class => (log, Ret _class)
  | LoadRaise (ImportError name) =>
      (log ++ [LOG_MODULE_NOT_LOADED name], Raise (Exc SystemExit [PyInt 1]))
  | LoadRaise _ClassNotFoundError =>
      (log ++ [LOG_CLASS_NOT_FOUND role import_path],
       Raise (Exc SystemExit [PyInt 1]))
  | LoadRaise (OtherError e) => (log, Raise e)
  end.
End Loader.

(** ** Vocabulary of the further properties *)

(** The state of the reference environment with the agent at [location]
    and the given dirt status at [A] and at [B]. *)
Definition state_of (location : string) (dirty_A dirty_B : bool)
    : BasicVacuumWorld.self :=
  {| BasicVacuumWorld._agent_location := location;
     BasicVacuumWorld._dirt_status := dict_of [("A", dirty_A); ("B", dirty_B)] |}.

(** The full state as [state] returns it. *)
Definition full_state (self : BasicVacuumWorld.self) : EnvState :=
  {| st_agent_location := BasicVacuumWorld._agent_location self;
     st_dirt_status := BasicVacuumWorld._dirt_status self |}.

(** The step indices of the decision records of a log, in order. *)
Definition decision_steps (log : list LogRecord) : list Z :=
  omap (fun l => match l with
                 | LOG_AGENT_DECISION t _ => Some t
                 | _ => None
                 end) log.

(** One point for a clean location. *)
Definition point (dirty : bool) : Z := if dirty then 0 else 1.

(** The name of the constructor parameter a flag [--env-...] stands for. *)
Definition param_name (arg : string) : string :=
  replace "-" "_" (slice_from 6 arg).

(** No token of a list of values is a flag. *)
Definition no_flag (values : list string) : Prop :=
  Forall (fun value => startswith value "--env-" = false) values.

(** A list of arguments that is empty or begins with a flag. *)
Definition flag_first (args : list string) : Prop :=
  match args with
  | [] => True
  | arg :: _ => startswith arg "--env-" = true
  end.

(** The characters of a string. *)
Fixpoint chars (s : string) : list ascii :=
  match s with
  | EmptyString => []
  | String c s' => c :: chars s'
  end.

(** The location the agent is not at. *)
Definition other_location (location : string) : string :=
  if String.eqb location "A" then "B" else "A".

(** The least number of actions after which both locations can be clean:
    one to suck where the agent is, if that is dirty, and two to move and
    suck at the other location, if that is dirty. *)
Definition steps_to_clean (self : BasicVacuumWorld.self) : nat :=
  let dirt := BasicVacuumWorld._dirt_status self in
  let here := default false (dirt !! BasicVacuumWorld._agent_location self) in
  let there :=
    default false (dirt !! other_location (BasicVacuumWorld._agent_location self)) in
  ((if here then 1 else 0) + (if there then 2 else 0))%nat.

(** The most points a state can be awarded when [n] actions are still
    needed to clean both locations. *)
Definition most_points (n : nat) : Z :=
  match n with
  | O => 2
  | 1%nat | 2%nat => 1
  | _ => 0
  end.

(** The most points [k] steps can be awarded from a state that needs [n]
    actions. *)
Fixpoint most_score (n k : nat) : Z :=
  match k with
  | O => 0
  | S k' => most_points (Nat.pred n) + most_score (Nat.pred n) k'
  end.

(** ** The runner step by step *)

(** The classification of a raising [decide] as the claim words it: a
    [ValueError] is an environment fault and anything else an agent
    fault. *)
Definition decide_fault_as_stated (r : result unit) (x : exn) : Prop :=
  (isinstance_ValueError x = true → r = Raise (ExperimentError "environment" x)) ∧
  (isinstance_ValueError x = false → r = Raise (ExperimentError "agent" x)).

(** The classification of a raising [update] as the claim words it: a
    [ValueError] is an agent fault and anything else an environment
    fault. *)
Definition update_fault_as_stated (r : result unit) (x : exn) : Prop :=
  (isinstance_ValueError x = true → r = Raise (ExperimentError "agent" x)) ∧
  (isinstance_ValueError x = false → r = Raise (ExperimentError "environment" x)).

Section Cycles.
Context {Obs St : Type}.
Variable environment : Environment Obs St.
Variable agent : Agent Obs.
Variable evaluator : Evaluator St.

(** One cycle as the specification describes the control flow of a step,
    written on the calls of the components themselves, with no handler:
    the runner reads the observable state, passes it to the agent, logs the
    action the agent returns, passes it to [environment.update], and passes
    the new full state to [evaluator.update].  The cycle is defined when
    each of these calls returns. *)
Definition spec_cycle (t : Z)
    (w : World (env_self environment) (agent_self agent) (eval_self evaluator))
    : option (World (env_self environment) (agent_self agent) (eval_self evaluator)) :=
  match env_observable_state environment (w_env w) with
  | (e1, Ret observation) =>
  match agent_decide agent observation (w_agent w) with
  | (a1, Ret action) =>
  match env_update environment action e1 with
  | (e2, Ret _) =>
  match env_state environment e2 with
  | (e3, Ret state) =>
  match eval_update evaluator state (w_eval w) with
  | (v1, Ret _) =>
      Some {| w_env := e3; w_agent := a1; w_eval := v1;
              w_log := w_log w ++ [LOG_AGENT_DECISION t action];
              w_calls := w_calls w ++ cycle t |}
  | (_, Raise _) => None
  end
  | (_, Raise _) => None
  end
  | (_, Raise _) => None
  end
  | (_, Raise _) => None
  end
  | (_, Raise _) => None
  end.

(** The cycles of the steps [ts], one after the other. *)
Fixpoint spec_cycles (ts : list Z)
    (w : World (env_self environment) (agent_self agent) (eval_self evaluator))
    : option (World (env_self environment) (agent_self agent) (eval_self evaluator)) :=
  match ts with
  | [] => Some w
  | t :: ts' =>
      match spec_cycle t w with
      | Some w1 => spec_cycles ts' w1
      | None => None
      end
  end.

(** The decisions the agent returns along the steps [ts], each with its
    step index, up to the first call that raises: the action of a step is
    what [decide] returns on the observable state of the environment, and
    the next step starts from what [update], [state] and the evaluator
    leave. *)
Fixpoint decisions_of (ts : list Z) (e : env_self environment)
    (a : agent_self agent) (v : eval_self evaluator) : list LogRecord :=
  match ts with
  | [] => []
  | t :: ts' =>
      match env_observable_state environment e with
      | (e1, Ret observation) =>
      match agent_decide agent observation a with
      | (a1, Ret action) =>
          LOG_AGENT_DECISION t action ::
          match env_update environment action e1 with
          | (e2, Ret _) =>
          match env_state environment e2 with
          | (e3, Ret state) =>
          match eval_update evaluator state v with
          | (v1, Ret _) => decisions_of ts' e3 a1 v1
          | (_, Raise _) => []
          end
          | (_, Raise _) => []
          end
          | (_, Raise _) => []
          end
      | (_, Raise _) => []
      end
      | (_, Raise _) => []
      end
  end.
End Cycles.

(** * Properties *)

(** ** The monad *)

Lemma for_each_cons {S X : Type} (x : X) (xs : list X) (body : X → Py S unit) (s : S) :
  for_each (x :: xs) body s = match body x s with
                              | (s', Ret _) => for_each xs body s'
                              | (s', Raise e) => (s', Raise e)
                              end.
Proof. reflexivity. Qed.

Lemma range_length (lo hi : Z) : length (range lo hi) = Z.to_nat (hi - lo).
Proof. unfold range. apply length_seqZ. Qed.

(** Splitting [range(lo, hi)] at one of its elements. *)
Lemma range_split (lo hi : Z) (ts1 ts2 : list Z) (t : Z) :
  range lo hi = ts1 ++ t :: ts2 →
  lo ≤ t < hi ∧ ts1 = range lo t ∧ ts2 = range (t + 1) hi.
Proof.
  unfold range. intros Hsplit.
  assert (Hlen : length (seqZ lo (hi - lo)) = (length ts1 + S (length ts2))%nat).
  { rewrite Hsplit, length_app. reflexivity. }
  rewrite length_seqZ in Hlen.
  assert (Ht : seqZ lo (hi - lo) !! length ts1 = Some t).
  { rewrite Hsplit. apply list_lookup_middle. reflexivity. }
  apply lookup_seqZ in Ht as [-> Hlt].
  split; [lia|].
  set (n := Z.of_nat (length ts1)) in *.
  replace (hi - lo) with (n + (hi - (lo + n))) in Hsplit by lia.
  rewrite seqZ_app in Hsplit by lia.
  rewrite (seqZ_cons (lo + n)) in Hsplit by lia.
  apply app_inj_1 in Hsplit as [H1 H2]; [|by rewrite length_seqZ; lia].
  injection H2 as H2.
  split.
  - rewrite <- H1. f_equal. lia.
  - rewrite <- H2. f_equal; lia.
Qed.

(** ** Membership tests *)

Lemma str_in_spec (x : string) (xs : list string) :
  str_in x xs = true ↔ x ∈ xs.
Proof.
  unfold str_in. rewrite existsb_exists. split.
  - intros (y & Hin & Heq). apply String.eqb_eq in Heq as ->.
    by apply list_elem_of_In.
  - intros Hin. exists x. split; [by apply list_elem_of_In | apply String.eqb_refl].
Qed.

(** ** The call history of the runner *)

Lemma cycle_no_call_raised (ts : list Z) :
  no_call_raised (concat (cycle <$> ts)).
Proof.
  induction ts as [|t ts IH]; [constructor|].
  rewrite fmap_cons. simpl. repeat (constructor; [reflexivity|]). exact IH.
Qed.

Lemma calls_before_no_call_raised (c : Call) (t : Z) :
  no_call_raised (calls_before c t).
Proof. destruct c; simpl; repeat constructor. Qed.

Lemma completed_app (c : Call) (xs ys : list Event) :
  completed c (xs ++ ys) = (completed c xs + completed c ys)%nat.
Proof. unfold completed. by rewrite filter_app, length_app. Qed.

(** Every complete step contributes one returned call of each kind. *)
Lemma completed_cycles (c : Call) (ts : list Z) :
  completed c (concat (cycle <$> ts)) = length ts.
Proof.
  induction ts as [|t ts IH]; [reflexivity|].
  rewrite fmap_cons, concat_cons, completed_app, IH.
  destruct c; reflexivity.
Qed.

Ltac unfold_step :=
  unfold step, try_except, on_environment, on_agent, on_evaluator,
    logger_info, record, mbind, py_bind; simpl.

Section RunnerFacts.
Context {Obs St : Type}.
Variable environment : Environment Obs St.
Variable agent : Agent Obs.
Variable evaluator : Evaluator St.

Abbreviation W' := (World (env_self environment) (agent_self agent) (eval_self evaluator)).
Abbreviation step' := (step environment agent evaluator).
Abbreviation run' := (run_experiment environment agent evaluator).

(** A step either makes its five calls and returns, or stops at the first
    call that raises and raises what the handlers make of the exception. *)
Lemma step_calls (t : Z) (w w' : W') (r : result unit) :
  step' t w = (w', r) →
  (r = Ret tt ∧ w_calls w' = w_calls w ++ cycle t) ∨
  (∃ c x, r = Raise (classify c x) ∧
          w_calls w' = w_calls w ++ calls_before c t ++ [Called c t (Some x)]).
Proof.
  unfold_step.
  destruct (env_observable_state environment (w_env w)) as [e1 [o|x]] eqn:Ho; simpl.
  2:{ intros [= <- <-]. right. exists ObservableState, x. by split. }
  destruct (agent_decide agent o (w_agent w)) as [a1 [d|x]] eqn:Hd; simpl.
  2:{ intros [= <- <-]. right. exists Decide, x. split; [done|].
      simpl. by rewrite <- app_assoc. }
  destruct (env_update environment d e1) as [e2 [[]|x]] eqn:Hu; simpl.
  2:{ intros [= <- <-]. right. exists Update, x. split; [done|].
      simpl. by rewrite <- !app_assoc. }
  destruct (env_state environment e2) as [e3 [s|x]] eqn:Hs; simpl.
  2:{ intros [= <- <-]. right. exists State, x. split; [done|].
      simpl. by rewrite <- !app_assoc. }
  destruct (eval_update evaluator s (w_eval w)) as [v1 [[]|x]] eqn:Hv; simpl.
  2:{ intros [= <- <-]. right. exists EvaluatorUpdate, x. split; [done|].
      simpl. by rewrite <- !app_assoc. }
  intros [= <- <-]. left. split; [done|]. simpl. by rewrite <- !app_assoc.
Qed.

(** A step logs at most the decision of the agent. *)
Lemma step_log (t : Z) (w w' : W') (r : result unit) :
  step' t w = (w', r) →
  ∃ ds, w_log w' = w_log w ++ ds ∧ Forall is_decision ds.
Proof.
  unfold_step.
  destruct (env_observable_state environment (w_env w)) as [e1 [o|x]]; simpl.
  2:{ intros [= <- <-]. exists []. by rewrite app_nil_r. }
  destruct (agent_decide agent o (w_agent w)) as [a1 [d|x]]; simpl.
  2:{ intros [= <- <-]. exists []. by rewrite app_nil_r. }
  assert (Hds : Forall is_decision [LOG_AGENT_DECISION t d]) by by repeat constructor.
  destruct (env_update environment d e1) as [e2 [[]|x]]; simpl.
  2:{ intros [= <- <-]. eauto. }
  destruct (env_state environment e2) as [e3 [s|x]]; simpl.
  2:{ intros [= <- <-]. eauto. }
  destruct (eval_update evaluator s (w_eval w)) as [v1 [[]|x]]; simpl.
  2:{ intros [= <- <-]. eauto. }
  intros [= <- <-]. eauto.
Qed.

(** The history of a loop: complete steps, then possibly one step cut
    short by the call that raised, and nothing after it. *)
Lemma loop_calls (ts : list Z) (w w' : W') (r : result unit) :
  for_each ts step' w = (w', r) →
  (r = Ret tt ∧ w_calls w' = w_calls w ++ concat (cycle <$> ts)) ∨
  (∃ ts1 t ts2 c x,
      ts = ts1 ++ t :: ts2 ∧ r = Raise (classify c x) ∧
      w_calls w' = w_calls w ++ concat (cycle <$> ts1)
                     ++ calls_before c t ++ [Called c t (Some x)]).
Proof.
  revert w. induction ts as [|t ts IH]; intros w.
  - intros [= <- <-]. left. simpl. by rewrite app_nil_r.
  - rewrite for_each_cons.
    destruct (step' t w) as [w1 [[]|e]] eqn:Hstep.
    + apply step_calls in Hstep as [[_ Hc]|(c & x & ? & _)]; [|done].
      intros Hloop. apply IH in Hloop as [[-> Hc']|(ts1 & t' & ts2 & c & x & -> & -> & Hc')].
      * left. split; [done|]. rewrite Hc', Hc, fmap_cons. simpl concat.
        by rewrite <- !app_assoc.
      * right. exists (t :: ts1), t', ts2, c, x. split; [done|]. split; [done|].
        rewrite Hc', Hc, fmap_cons. simpl concat. by rewrite <- !app_assoc.
    + intros [= <- <-].
      apply step_calls in Hstep as [[? _]|(c & x & -> & Hc)]; [done|].
      right. by exists [], t, ts, c, x.
Qed.

Lemma loop_log (ts : list Z) (w w' : W') (r : result unit) :
  for_each ts step' w = (w', r) →
  ∃ ds, w_log w' = w_log w ++ ds ∧ Forall is_decision ds.
Proof.
  revert w. induction ts as [|t ts IH]; intros w.
  - intros [= <- <-]. exists []. by rewrite app_nil_r.
  - rewrite for_each_cons.
    destruct (step' t w) as [w1 [[]|e]] eqn:Hstep;
      apply step_log in Hstep as (ds1 & Hl1 & Hd1).
    + intros Hloop. apply IH in Hloop as (ds2 & Hl2 & Hd2).
      exists (ds1 ++ ds2). rewrite Hl2, Hl1, <- app_assoc. split; [done|].
      by apply Forall_app.
    + intros [= <- <-]. eauto.
Qed.

(** The history of [run_experiment]: either the 1000 complete steps, or the
    complete steps [1 .. t-1] followed by the calls of step [t] up to the
    one that raised. *)
Lemma run_experiment_calls (w w' : W') (r : result unit) :
  run' w = (w', r) →
  (r = Ret tt ∧ w_calls w' = w_calls w ++ concat (cycle <$> range 1 1001)) ∨
  (∃ t c x,
      1 ≤ t ≤ 1000 ∧ r = Raise (classify c x) ∧
      w_calls w' = w_calls w ++ concat (cycle <$> range 1 t)
                     ++ calls_before c t ++ [Called c t (Some x)]).
Proof.
  unfold run_experiment. intros Hrun.
  apply loop_calls in Hrun as [?|(ts1 & t & ts2 & c & x & Hsplit & -> & Hc)]; [by left|].
  apply range_split in Hsplit as (Ht & -> & _).
  right. exists t, c, x. split; [lia|]. by split.
Qed.

(** When a call of the history raised, it is its last call, and the run
    raised what the handlers around that call make of the exception. *)
Lemma run_experiment_raising_call (w w' : W') (r : result unit)
    (c : Call) (t : Z) (x : exn) :
  w_calls w = [] →
  run' w = (w', r) →
  Called c t (Some x) ∈ w_calls w' →
  1 ≤ t ≤ 1000 ∧
  r = Raise (classify c x) ∧
  w_calls w' = concat (cycle <$> range 1 t) ++ calls_before c t
                 ++ [Called c t (Some x)].
Proof.
  intros Hfresh Hrun Hin.
  apply run_experiment_calls in Hrun as [[_ Hc]|(t' & c' & x' & Ht & -> & Hc)];
    rewrite Hfresh in Hc; simpl in Hc; rewrite Hc in Hin.
  - pose proof (cycle_no_call_raised (range 1 1001)) as Hok.
    unfold no_call_raised in Hok. rewrite Forall_forall in Hok.
    apply Hok in Hin. discriminate.
  - rewrite !elem_of_app in Hin. destruct Hin as [Hin|[Hin|Hin]].
    + pose proof (cycle_no_call_raised (range 1 t')) as Hok.
      unfold no_call_raised in Hok. rewrite Forall_forall in Hok.
      apply Hok in Hin. discriminate.
    + pose proof (calls_before_no_call_raised c' t') as Hok.
      unfold no_call_raised in Hok. rewrite Forall_forall in Hok.
      apply Hok in Hin. discriminate.
    + apply list_elem_of_singleton in Hin. injection Hin as -> -> ->. done.
Qed.

End RunnerFacts.

(** ** The steps on the calls of the components *)

Section RunnerSteps.
Context {Obs St : Type}.
Variable environment : Environment Obs St.
Variable agent : Agent Obs.
Variable evaluator : Evaluator St.

(** A step in which [decide] raises: nothing is logged, the environment
    keeps what reading the observable state left, the evaluator is not
    called, and what the handlers make of the exception is raised. *)
Lemma step_decide_raises (t : Z)
    (w : World (env_self environment) (agent_self agent) (eval_self evaluator))
    (e1 : env_self environment) (o : Obs) (a1 : agent_self agent) (x : exn) :
  env_observable_state environment (w_env w) = (e1, Ret o) →
  agent_decide agent o (w_agent w) = (a1, Raise x) →
  step environment agent evaluator t w
  = ({| w_env := e1; w_agent := a1; w_eval := w_eval w; w_log := w_log w;
        w_calls := w_calls w
                   ++ [returned ObservableState t; Called Decide t (Some x)] |},
     Raise (classify_decide x)).
Proof.
  intros Ho Hd. unfold_step. rewrite Ho. simpl. rewrite Hd. simpl.
  by rewrite <- app_assoc.
Qed.

(** A step in which [update] raises: the decision is logged, the
    evaluator is not called, and what the handlers make of the exception is
    raised. *)
Lemma step_update_raises (t : Z)
    (w : World (env_self environment) (agent_self agent) (eval_self evaluator))
    (e1 e2 : env_self environment) (o : Obs) (a1 : agent_self agent)
    (decision : pyval) (x : exn) :
  env_observable_state environment (w_env w) = (e1, Ret o) →
  agent_decide agent o (w_agent w) = (a1, Ret decision) →
  env_update environment decision e1 = (e2, Raise x) →
  step environment agent evaluator t w
  = ({| w_env := e2; w_agent := a1; w_eval := w_eval w;
        w_log := w_log w ++ [LOG_AGENT_DECISION t decision];
        w_calls := w_calls w
                   ++ [returned ObservableState t; returned Decide t;
                       Called Update t (Some x)] |},
     Raise (classify_update x)).
Proof.
  intros Ho Hd Hu. unfold_step. rewrite Ho. simpl. rewrite Hd. simpl.
  rewrite Hu. simpl. by rewrite <- !app_assoc.
Qed.

(** A step returns exactly when the five calls of its cycle return, and
    then it leaves what the cycle leaves. *)
Lemma step_spec_cycle (t : Z)
    (w w' : World (env_self environment) (agent_self agent) (eval_self evaluator)) :
  step environment agent evaluator t w = (w', Ret tt)
  ↔ spec_cycle environment agent evaluator t w = Some w'.
Proof.
  unfold spec_cycle. unfold_step.
  destruct (env_observable_state environment (w_env w)) as [e1 [o|x]]; simpl;
    [|split; discriminate].
  destruct (agent_decide agent o (w_agent w)) as [a1 [d|x]]; simpl;
    [|split; discriminate].
  destruct (env_update environment d e1) as [e2 [[]|x]]; simpl;
    [|split; discriminate].
  destruct (env_state environment e2) as [e3 [s|x]]; simpl;
    [|split; discriminate].
  destruct (eval_update evaluator s (w_eval w)) as [v1 [[]|x]]; simpl;
    [|split; discriminate].
  unfold cycle, returned. rewrite <- !app_assoc. simpl.
  split; intros [= <-]; reflexivity.
Qed.

(** A loop returns exactly when all its cycles are defined. *)
Lemma loop_spec_cycles (ts : list Z)
    (w w' : World (env_self environment) (agent_self agent) (eval_self evaluator)) :
  for_each ts (step environment agent evaluator) w = (w', Ret tt)
  ↔ spec_cycles environment agent evaluator ts w = Some w'.
Proof.
  revert w. induction ts as [|t ts IH]; intros w.
  - simpl. unfold mret, py_ret. split; intros [= <-]; reflexivity.
  - rewrite for_each_cons. simpl spec_cycles.
    destruct (step environment agent evaluator t w) as [w1 [[]|e]] eqn:Hstep.
    + apply step_spec_cycle in Hstep. rewrite Hstep. apply IH.
    + destruct (spec_cycle environment agent evaluator t w) as [w2|] eqn:Hspec;
        [|split; discriminate].
      apply step_spec_cycle in Hspec. rewrite Hspec in Hstep. discriminate.
Qed.

(** What a loop logs: the decisions the agent returned. *)
Lemma loop_decisions_of (ts : list Z)
    (w : World (env_self environment) (agent_self agent) (eval_self evaluator)) :
  w_log (for_each ts (step environment agent evaluator) w).1
  = w_log w ++ decisions_of environment agent evaluator ts
                 (w_env w) (w_agent w) (w_eval w).
Proof.
  revert w. induction ts as [|t ts IH]; intros w.
  - simpl. by rewrite app_nil_r.
  - rewrite for_each_cons. simpl decisions_of.
    destruct (step environment agent evaluator t w) as [w1 r1] eqn:Hstep.
    revert Hstep. unfold_step.
    destruct (env_observable_state environment (w_env w)) as [e1 [o|x]]; simpl.
    2:{ intros [= <- <-]. simpl. by rewrite app_nil_r. }
    destruct (agent_decide agent o (w_agent w)) as [a1 [d|x]]; simpl.
    2:{ intros [= <- <-]. simpl. by rewrite app_nil_r. }
    destruct (env_update environment d e1) as [e2 [[]|x]]; simpl.
    2:{ intros [= <- <-]. reflexivity. }
    destruct (env_state environment e2) as [e3 [s|x]]; simpl.
    2:{ intros [= <- <-]. reflexivity. }
    destruct (eval_update evaluator s (w_eval w)) as [v1 [[]|x]]; simpl.
    2:{ intros [= <- <-]. reflexivity. }
    intros [= <- <-]. rewrite IH. simpl. by rewrite <- app_assoc.
Qed.

End RunnerSteps.

(** ** The reference environment *)

Lemma convert_to_dirt_status_Ret (token : string) (b : bool) :
  BasicVacuumWorld._convert_to_dirt_status token = Ret b →
  lower token ∈ DIRTY_VALUES ∨ lower token ∈ CLEAN_VALUES.
Proof.
  unfold BasicVacuumWorld._convert_to_dirt_status.
  destruct (str_in (lower token) DIRTY_VALUES) eqn:Hd.
  { intros _. left. by apply str_in_spec. }
  destruct (str_in (lower token) CLEAN_VALUES) eqn:Hc; [|discriminate].
  intros _. right. by apply str_in_spec.
Qed.

Ltac raises := right; eexists; reflexivity.

Lemma convert_to_dirt_status_cases (token : string) :
  (∃ b, BasicVacuumWorld._convert_to_dirt_status token = Ret b) ∨
  (∃ arg, BasicVacuumWorld._convert_to_dirt_status token = Raise (Exc ValueError [arg])).
Proof.
  unfold BasicVacuumWorld._convert_to_dirt_status.
  destruct (str_in (lower token) DIRTY_VALUES); [left; eexists; reflexivity|].
  destruct (str_in (lower token) CLEAN_VALUES); [left|right]; eexists; reflexivity.
Qed.

(** The constructor returns exactly on one location among [A], [B] and two
    recognized tokens, and raises a one-argument [ValueError] on anything
    else. *)
Lemma init_cases (agent_location dirt_status : list string) :
  (∃ location token_A token_B dirty_A dirty_B,
      agent_location = [location] ∧ location ∈ BasicVacuumWorld.locations ∧
      dirt_status = [token_A; token_B] ∧
      BasicVacuumWorld._convert_to_dirt_status token_A = Ret dirty_A ∧
      BasicVacuumWorld._convert_to_dirt_status token_B = Ret dirty_B ∧
      BasicVacuumWorld.__init__ agent_location dirt_status =
        Ret {| BasicVacuumWorld._agent_location := location;
               BasicVacuumWorld._dirt_status :=
                 dict_of [("A", dirty_A); ("B", dirty_B)] |}) ∨
  (∃ arg, BasicVacuumWorld.__init__ agent_location dirt_status =
            Raise (Exc ValueError [arg])).
Proof.
  unfold BasicVacuumWorld.__init__.
  destruct agent_location as [|location [|? ?]]; simpl; [raises| |raises].
  destruct (str_in location BasicVacuumWorld.locations) eqn:Hloc; simpl;
    [|raises].
  apply str_in_spec in Hloc.
  destruct dirt_status as [|token_A [|token_B [|? ?]]]; simpl;
    [raises|raises| |raises].
  unfold mbind, result_bind.
  destruct (convert_to_dirt_status_cases token_A) as [[dirty_A HA]|[arg HA]];
    rewrite HA; [|raises].
  destruct (convert_to_dirt_status_cases token_B) as [[dirty_B HB]|[arg HB]];
    rewrite HB; [|raises].
  left. by exists location, token_A, token_B, dirty_A, dirty_B.
Qed.

Lemma dom_two_locations (dirty_A dirty_B : bool) :
  dom (dict_of [("A", dirty_A); ("B", dirty_B)]) = ({["A"; "B"]} : gset string).
Proof.
  unfold dict_of. simpl. rewrite !dom_insert_L, dom_empty_L. set_solver.
Qed.

(** Every reachable state has the agent at one of the two locations and
    one dirt status per location. *)
Lemma reachable_invariant (self : BasicVacuumWorld.self) :
  reachable self →
  BasicVacuumWorld._agent_location self ∈ BasicVacuumWorld.locations ∧
  dom (BasicVacuumWorld._dirt_status self) = ({["A"; "B"]} : gset string).
Proof.
  induction 1 as [al ds self Hinit|self action self' r _ [IHloc IHdom] Hupd].
  - destruct (init_cases al ds)
      as [(l & tA & tB & dA & dB & _ & Hl & _ & _ & _ & Heq)|[arg Heq]];
      rewrite Heq in Hinit; [|discriminate].
    injection Hinit as <-. simpl. split; [done|apply dom_two_locations].
  - unfold BasicVacuumWorld.update in Hupd.
    destruct (BasicVacuumWorld.eq_str action "SUCK").
    { injection Hupd as <- _. simpl. split; [done|].
      rewrite dom_insert_L, IHdom.
      unfold BasicVacuumWorld.locations in IHloc. set_solver. }
    destruct (BasicVacuumWorld.eq_str action "RIGHT").
    { injection Hupd as <- _. simpl. split; [|done].
      unfold BasicVacuumWorld.locations. set_solver. }
    destruct (BasicVacuumWorld.eq_str action "LEFT").
    { injection Hupd as <- _. simpl. split; [|done].
      unfold BasicVacuumWorld.locations. set_solver. }
    by injection Hupd as <- _.
Qed.

(** [update] raises exactly on the values outside the vocabulary, and then
    changes nothing. *)
Lemma update_cases (action : pyval) (self : BasicVacuumWorld.self) :
  ((BasicVacuumWorld.update action self).2 = Ret tt ∧
   action ∈ (PyStr <$> BasicVacuumWorld.actions)) ∨
  (BasicVacuumWorld.update action self = (self, Raise (Exc ValueError [action])) ∧
   action ∉ (PyStr <$> BasicVacuumWorld.actions)).
Proof.
  assert (Hstr : ∀ a, PyStr a ∈ (PyStr <$> BasicVacuumWorld.actions) →
                      a = "LEFT" ∨ a = "RIGHT" ∨ a = "SUCK").
  { intros a Hin. apply list_elem_of_fmap in Hin as (b & [= ->] & Hb).
    unfold BasicVacuumWorld.actions in Hb. set_solver. }
  assert (Hother : ∀ a, (∀ s, a ≠ PyStr s) → a ∉ (PyStr <$> BasicVacuumWorld.actions)).
  { intros a Ha Hin. apply list_elem_of_fmap in Hin as (b & -> & _). by eapply Ha. }
  unfold BasicVacuumWorld.update, BasicVacuumWorld.eq_str.
  destruct action as [| | |a|]; try (right; split; [reflexivity|by apply Hother]).
  destruct (String.eqb_spec a "SUCK") as [->|Hs].
  { left. split; [reflexivity|simpl; repeat constructor]. }
  destruct (String.eqb_spec a "RIGHT") as [->|Hr].
  { left. split; [reflexivity|simpl; repeat constructor]. }
  destruct (String.eqb_spec a "LEFT") as [->|Hl].
  { left. split; [reflexivity|simpl; repeat constructor]. }
  right. split; [reflexivity|].
  intros Hin. apply Hstr in Hin. naive_solver.
Qed.

Lemma new_environment_args (agent_location dirt_status : list string) :
  BasicVacuumWorld.new (environment_args agent_location dirt_status)
  = BasicVacuumWorld.__init__ agent_location dirt_status.
Proof.
  unfold BasicVacuumWorld.new, environment_args.
  rewrite bool_decide_eq_true_2.
  2:{ rewrite !dom_insert_L, dom_empty_L. set_solver. }
  rewrite lookup_insert_eq, lookup_insert_ne, lookup_insert_eq by done.
  reflexivity.
Qed.

(** C7. In every reachable state of [BasicVacuumWorld], [observable_state]
    returns, without changing the state, the agent's location and the dirt
    status of that location, and nothing else.  It depends on nothing else:
    any state with the same agent location and the same dirt status at that
    location, whatever its dirt status elsewhere, gives the same
    observation. *)
Theorem observation_leakage (self other : BasicVacuumWorld.self) :
  reachable self →
  let location := BasicVacuumWorld._agent_location self in
  (∃ is_dirty,
      BasicVacuumWorld._dirt_status self !! location = Some is_dirty ∧
      BasicVacuumWorld.observable_state self =
        (self, Ret {| obs_agent_location := location; obs_is_dirty := is_dirty |})) ∧
  (BasicVacuumWorld._agent_location other = location →
   BasicVacuumWorld._dirt_status other !! location
     = BasicVacuumWorld._dirt_status self !! location →
   (BasicVacuumWorld.observable_state other).2
     = (BasicVacuumWorld.observable_state self).2).
Proof.
  intros Hreach location. apply reachable_invariant in Hreach as [Hloc Hdom].
  split.
  - assert (Hin : location ∈ dom (BasicVacuumWorld._dirt_status self)).
    { rewrite Hdom. unfold BasicVacuumWorld.locations in Hloc.
      subst location. set_solver. }
    apply elem_of_dom in Hin as [is_dirty His].
    exists is_dirty. split; [done|].
    unfold BasicVacuumWorld.observable_state. fold location. by rewrite His.
  - intros Hsame Hdirt. unfold BasicVacuumWorld.observable_state.
    fold location. rewrite Hsame, Hdirt.
    by destruct (BasicVacuumWorld._dirt_status self !! location).
Qed.

(** C8. When the agent is at [A], [update('SUCK')] returns, sets
    [dirt_status['A']] to [False], and changes nothing else: the agent
    stays at [A], and the dirt status of [B], as of any key other than [A],
    is what it was. *)
Theorem suck_at_A_state_isolation (self : BasicVacuumWorld.self) :
  BasicVacuumWorld._agent_location self = "A" →
  let self' := (BasicVacuumWorld.update (PyStr "SUCK") self).1 in
  (BasicVacuumWorld.update (PyStr "SUCK") self).2 = Ret tt ∧
  BasicVacuumWorld._agent_location self' = "A" ∧
  BasicVacuumWorld._dirt_status self' !! "A" = Some false ∧
  BasicVacuumWorld._dirt_status self' !! "B"
    = BasicVacuumWorld._dirt_status self !! "B" ∧
  (∀ location, location ≠ "A" →
     BasicVacuumWorld._dirt_status self' !! location
       = BasicVacuumWorld._dirt_status self !! location).
Proof.
  intros HA. unfold BasicVacuumWorld.update. simpl. rewrite HA.
  split; [done|]. split; [done|].
  split; [apply lookup_insert_eq|].
  split; [by apply lookup_insert_ne|].
  intros location Hne. by apply lookup_insert_ne.
Qed.

(** C9. Constructing [BasicVacuumWorld] with an agent location that is not
    the one-element list of [A] or of [B], or with a dirt-status token
    whose lower-case form is in neither [DIRTY_VALUES] nor [CLEAN_VALUES],
    raises a [ValueError].  [main] then logs the bad parameter and returns
    1: no step of the simulation runs, nothing else is logged. *)
Theorem bad_construction_rejection
    (agent : Agent Observation) (evaluator : Evaluator EnvState)
    (a : agent_self agent) (v : eval_self evaluator)
    (agent_location dirt_status : list string) (log : list LogRecord) :
  agent_new agent = Ret a →
  eval_new evaluator = Ret v →
  (∀ location, agent_location = [location] →
               location ∉ BasicVacuumWorld.locations) ∨
  (∃ token, token ∈ dirt_status ∧
            (lower token ∉ DIRTY_VALUES) ∧ (lower token ∉ CLEAN_VALUES)) →
  ∃ arg,
    BasicVacuumWorld.__init__ agent_location dirt_status
      = Raise (Exc ValueError [arg]) ∧
    isinstance_ValueError (Exc ValueError [arg]) = true ∧
    main BasicVacuumWorld.class agent evaluator
         (environment_args agent_location dirt_status) log
      = (log ++ [LOG_HELLO; LOG_ENVIRONMENT_INIT_ERROR arg], Ret (Some 1)).
Proof.
  intros Ha Hv Hbad.
  destruct (init_cases agent_location dirt_status)
    as [(l & tA & tB & dA & dB & -> & Hl & -> & HA & HB & _)|[arg Hraise]].
  - exfalso. destruct Hbad as [Hbad|(token & Hin & Hd & Hc)].
    + by apply (Hbad l).
    + apply convert_to_dirt_status_Ret in HA, HB.
      apply elem_of_cons in Hin as [->|Hin]; [tauto|].
      apply list_elem_of_singleton in Hin as ->. tauto.
  - exists arg. split; [done|]. split; [done|].
    unfold main. rewrite Hv, Ha. simpl env_new.
    rewrite new_environment_args, Hraise. simpl.
    by rewrite <- app_assoc.
Qed.

(** C10. When [BasicVacuumWorld.update(action)] raises, the state after
    the call is the state before it, and [action] is outside the
    vocabulary: the only [raise] is in the last branch, after the tests and
    before any assignment.  In the runner, a step that ends on a raising
    [update] leaves the environment as it was before the step. *)
Theorem rejected_update_leaves_state
    (agent : Agent Observation) (evaluator : Evaluator EnvState)
    (w : World BasicVacuumWorld.self (agent_self agent) (eval_self evaluator))
    (t : Z) (x e : exn) (self : BasicVacuumWorld.self) (action : pyval) :
  (BasicVacuumWorld.update action self).2 = Raise e →
  last (w_calls (step BasicVacuumWorld.class agent evaluator t w).1)
    = Some (Called Update t (Some x)) →
  (BasicVacuumWorld.update action self).1 = self ∧
  e = Exc ValueError [action] ∧
  (action ∉ (PyStr <$> BasicVacuumWorld.actions)) ∧
  w_env (step BasicVacuumWorld.class agent evaluator t w).1 = w_env w ∧
  (step BasicVacuumWorld.class agent evaluator t w).2
    = Raise (ExperimentError "agent" x).
Proof.
  intros Hraise Hlast.
  destruct (update_cases action self) as [[Hret _]|[Heq Hout]].
  { rewrite Hret in Hraise. discriminate. }
  rewrite Heq in Hraise |- *. injection Hraise as <-.
  split; [done|]. split; [done|]. split; [done|].
  revert Hlast. unfold_step.
  unfold BasicVacuumWorld.observable_state.
  destruct (BasicVacuumWorld._dirt_status (w_env w) !! _) as [is_dirty|]; simpl.
  2:{ rewrite last_snoc. discriminate. }
  destruct (agent_decide agent _ (w_agent w)) as [a1 [d|y]]; simpl.
  2:{ rewrite last_snoc. intros [= ]. }
  destruct (update_cases d (w_env w)) as [[Hret' _]|[Heq' _]].
  - destruct (BasicVacuumWorld.update d (w_env w)) as [e2 [[]|y]];
      [|discriminate]. simpl.
    destruct (eval_update evaluator _ (w_eval w)) as [v1 [[]|y]]; simpl;
      rewrite last_snoc; discriminate.
  - rewrite Heq'. simpl. rewrite last_snoc. intros [= <-]. done.
Qed.

(** ** Fault classification and the fixed horizon *)

Lemma classify_decide_cases (x : exn) :
  (isinstance_ValueError x = true →
     classify_decide x = ExperimentError "environment" x) ∧
  (isinstance_ValueError x = false → isinstance_Exception x = true →
     classify_decide x = ExperimentError "agent" x) ∧
  (isinstance_Exception x = false → classify_decide x = x).
Proof.
  unfold classify_decide. split; [by intros ->|]. split; [by intros -> ->|].
  destruct x as [[] args|component cause]; simpl; intros; done.
Qed.

Lemma classify_update_cases (x : exn) :
  (isinstance_ValueError x = true →
     classify_update x = ExperimentError "agent" x) ∧
  (isinstance_ValueError x = false → isinstance_Exception x = true →
     classify_update x = ExperimentError "environment" x) ∧
  (isinstance_Exception x = false → classify_update x = x).
Proof.
  unfold classify_update. split; [by intros ->|]. split; [by intros -> ->|].
  destruct x as [[] args|component cause]; simpl; intros; done.
Qed.

(** C1, as the code has it.  When [agent.decide] raises [x] during a step
    of [run_experiment], what the run raises is [ExperimentError] with the
    component ['environment'] when [x] is a [ValueError], [ExperimentError]
    with the component ['agent'] when [x] is any other instance of
    [Exception], and [x] itself, unclassified, when [x] is not an instance
    of [Exception] ([KeyboardInterrupt], [SystemExit]).  In all cases no
    further step runs.  This is stated twice: on a run started with an
    empty call history (the raising call is the last call of the run, after
    the complete steps [1 .. t-1], so only [t-1] updates of the environment
    and of the evaluator were made), and on the calls themselves (a loop
    whose first step reads the observable state and sees [decide] raise
    ends there, whatever steps are left, with nothing logged and the
    evaluator untouched). *)
Theorem decide_fault_classification {Obs St : Type}
    (environment : Environment Obs St) (agent : Agent Obs)
    (evaluator : Evaluator St)
    (w w0 : World (env_self environment) (agent_self agent) (eval_self evaluator))
    (t t0 : Z) (ts : list Z) (x : exn)
    (e1 : env_self environment) (o : Obs) (a1 : agent_self agent) :
  w_calls w = [] →
  Called Decide t (Some x) ∈ w_calls (run_experiment environment agent evaluator w).1 →
  env_observable_state environment (w_env w0) = (e1, Ret o) →
  agent_decide agent o (w_agent w0) = (a1, Raise x) →
  let w' := (run_experiment environment agent evaluator w).1 in
  let r := (run_experiment environment agent evaluator w).2 in
  let fault := classify_decide x in
  (isinstance_ValueError x = true → fault = ExperimentError "environment" x) ∧
  (isinstance_ValueError x = false → isinstance_Exception x = true →
     fault = ExperimentError "agent" x) ∧
  (isinstance_Exception x = false → fault = x) ∧
  r = Raise fault ∧
  w_calls w' = concat (cycle <$> range 1 t)
                 ++ [returned ObservableState t; Called Decide t (Some x)] ∧
  1 ≤ t ≤ 1000 ∧
  completed Update (w_calls w') = Z.to_nat (t - 1) ∧
  completed EvaluatorUpdate (w_calls w') = Z.to_nat (t - 1) ∧
  for_each (t0 :: ts) (step environment agent evaluator) w0
  = ({| w_env := e1; w_agent := a1; w_eval := w_eval w0; w_log := w_log w0;
        w_calls := w_calls w0
                   ++ [returned ObservableState t0; Called Decide t0 (Some x)] |},
     Raise fault).
Proof.
  intros Hfresh Hin Hobs Hdec w' r fault. subst w' r fault.
  destruct (run_experiment environment agent evaluator w) as [w' r] eqn:Hrun.
  cbn [fst snd] in *.
  destruct (run_experiment_raising_call _ _ _ _ _ _ _ _ _ Hfresh Hrun Hin)
    as (Ht & -> & Hcalls).
  simpl in Hcalls. unfold classify.
  destruct (classify_decide_cases x) as (Hvalue & Hother & Hbase).
  split; [exact Hvalue|]. split; [exact Hother|]. split; [exact Hbase|].
  split; [done|]. split; [exact Hcalls|]. split; [exact Ht|].
  rewrite Hcalls, !completed_app, !completed_cycles, range_length.
  split; [|split].
  - replace (completed Update [_; _]) with 0%nat by reflexivity. lia.
  - replace (completed EvaluatorUpdate [_; _]) with 0%nat by reflexivity. lia.
  - by rewrite for_each_cons, (step_decide_raises _ _ _ _ _ _ _ _ _ Hobs Hdec).
Qed.

(** C2, as the code has it.  Whatever the value [action] outside ['LEFT'],
    ['RIGHT'], ['SUCK'], [BasicVacuumWorld.update(action)] raises
    [ValueError(action)] and leaves the environment as it was; a loop of the
    runner on the reference environment whose first step sees the agent
    decide [action] logs the decision and ends there with
    [ExperimentError('agent', ValueError(action))], whatever steps are left,
    the environment and the evaluator untouched.  For any environment, when
    [environment.update] raises [x] during a run of [run_experiment] started
    with an empty call history, what the run raises is [ExperimentError]
    with the component ['agent'] when [x] is a [ValueError], with the
    component ['environment'] when [x] is any other instance of
    [Exception], and [x] itself, unclassified, when [x] is not an instance of
    [Exception]; the raising call is the last call of the run, at a step
    [t] between 1 and 1000, and only [t-1 < 1000] steps were completed. *)
Theorem action_vocabulary_enforcement {Obs St : Type}
    (environment : Environment Obs St) (agent : Agent Obs)
    (evaluator : Evaluator St)
    (w : World (env_self environment) (agent_self agent) (eval_self evaluator))
    (t : Z) (x : exn)
    (reference_agent : Agent Observation) (reference_evaluator : Evaluator EnvState)
    (w0 : World BasicVacuumWorld.self (agent_self reference_agent)
                (eval_self reference_evaluator))
    (t0 : Z) (ts : list Z) (o : Observation) (a1 : agent_self reference_agent)
    (self : BasicVacuumWorld.self) (action : pyval) :
  action ∉ (PyStr <$> BasicVacuumWorld.actions) →
  BasicVacuumWorld.observable_state (w_env w0) = (w_env w0, Ret o) →
  agent_decide reference_agent o (w_agent w0) = (a1, Ret action) →
  w_calls w = [] →
  Called Update t (Some x) ∈ w_calls (run_experiment environment agent evaluator w).1 →
  let w' := (run_experiment environment agent evaluator w).1 in
  let r := (run_experiment environment agent evaluator w).2 in
  let fault := classify_update x in
  BasicVacuumWorld.update action self = (self, Raise (Exc ValueError [action])) ∧
  isinstance_ValueError (Exc ValueError [action]) = true ∧
  for_each (t0 :: ts)
    (step BasicVacuumWorld.class reference_agent reference_evaluator) w0
  = ({| w_env := w_env w0; w_agent := a1; w_eval := w_eval w0;
        w_log := w_log w0 ++ [LOG_AGENT_DECISION t0 action];
        w_calls := w_calls w0
                   ++ [returned ObservableState t0; returned Decide t0;
                       Called Update t0 (Some (Exc ValueError [action]))] |},
     Raise (ExperimentError "agent" (Exc ValueError [action]))) ∧
  (isinstance_ValueError x = true → fault = ExperimentError "agent" x) ∧
  (isinstance_ValueError x = false → isinstance_Exception x = true →
     fault = ExperimentError "environment" x) ∧
  (isinstance_Exception x = false → fault = x) ∧
  r = Raise fault ∧
  w_calls w' = concat (cycle <$> range 1 t)
                 ++ [returned ObservableState t; returned Decide t;
                     Called Update t (Some x)] ∧
  1 ≤ t ≤ 1000 ∧
  completed EvaluatorUpdate (w_calls w') = Z.to_nat (t - 1) ∧
  (completed EvaluatorUpdate (w_calls w') < 1000)%nat.
Proof.
  intros Hout Hobs Hdec Hfresh Hin w' r fault. subst w' r fault.
  destruct (run_experiment environment agent evaluator w) as [w' r] eqn:Hrun.
  cbn [fst snd] in *.
  destruct (run_experiment_raising_call _ _ _ _ _ _ _ _ _ Hfresh Hrun Hin)
    as (Ht & -> & Hcalls).
  simpl in Hcalls. unfold classify.
  assert (Hreject : ∀ s, BasicVacuumWorld.update action s
                         = (s, Raise (Exc ValueError [action]))).
  { intros s. by destruct (update_cases action s) as [[_ Hin']|[Heq _]]. }
  split; [apply Hreject|]. split; [reflexivity|].
  split.
  { rewrite for_each_cons.
    by rewrite (step_update_raises BasicVacuumWorld.class reference_agent
                  reference_evaluator t0 w0 (w_env w0) (w_env w0) o a1 action
                  (Exc ValueError [action]) Hobs Hdec (Hreject _)). }
  destruct (classify_update_cases x) as (Hvalue & Hother & Hbase).
  split; [exact Hvalue|]. split; [exact Hother|]. split; [exact Hbase|].
  split; [done|]. split; [exact Hcalls|]. split; [exact Ht|].
  rewrite Hcalls, !completed_app, !completed_cycles, range_length.
  replace (completed EvaluatorUpdate [_; _; _]) with 0%nat by reflexivity. lia.
Qed.

(** C3.  On a run of [run_experiment] started with an empty call history,
    these three say the same: the run returns; no call of its history
    raised; each of the 1000 cycles of the steps [1 .. 1000], made of the
    calls of the components themselves, is defined.  When they hold, the
    world the run leaves is the one the 1000 cycles leave, one after the
    other: the run has performed exactly the 1000 decide/update/evaluate
    cycles, no fewer and no more, and nothing but a raising call ends the
    loop before. *)
Theorem fixed_horizon {Obs St : Type}
    (environment : Environment Obs St) (agent : Agent Obs)
    (evaluator : Evaluator St)
    (w : World (env_self environment) (agent_self agent) (eval_self evaluator)) :
  w_calls w = [] →
  let w' := (run_experiment environment agent evaluator w).1 in
  let r := (run_experiment environment agent evaluator w).2 in
  (no_call_raised (w_calls w') ↔ r = Ret tt) ∧
  (is_Some (spec_cycles environment agent evaluator (range 1 1001) w) ↔ r = Ret tt) ∧
  (r = Ret tt →
   spec_cycles environment agent evaluator (range 1 1001) w = Some w' ∧
   length (range 1 1001) = 1000%nat ∧
   w_calls w' = concat (cycle <$> range 1 1001) ∧
   completed Decide (w_calls w') = 1000%nat ∧
   completed Update (w_calls w') = 1000%nat ∧
   completed EvaluatorUpdate (w_calls w') = 1000%nat).
Proof.
  intros Hfresh w' r. subst w' r.
  destruct (run_experiment environment agent evaluator w) as [w' r] eqn:Hrun.
  cbn [fst snd].
  assert (Hspec : r = Ret tt →
            spec_cycles environment agent evaluator (range 1 1001) w = Some w').
  { intros ->. by apply loop_spec_cycles. }
  pose proof Hrun as Hshape.
  apply run_experiment_calls in Hshape as [[-> Hc]|(t & c & x & _ & -> & Hc)];
    rewrite Hfresh, app_nil_l in Hc.
  - split; [split; [done|]|].
    { intros _. rewrite Hc. apply cycle_no_call_raised. }
    split; [split; [done|]|].
    { intros _. rewrite Hspec by done. by eexists. }
    intros _. split; [by apply Hspec|]. split; [by rewrite range_length|].
    split; [done|]. by rewrite Hc, !completed_cycles, range_length.
  - split; [split; [|done]|].
    { intros Hok. exfalso. unfold no_call_raised in Hok.
      rewrite Forall_forall in Hok.
      assert (Hin : Called c t (Some x) ∈ w_calls w').
      { rewrite Hc, !elem_of_app. right. right. by apply list_elem_of_singleton. }
      apply Hok in Hin. discriminate. }
    split; [split; [|done]|done].
    intros [w2 Hw2]. apply loop_spec_cycles in Hw2.
    unfold run_experiment in Hrun. rewrite Hrun in Hw2. by injection Hw2.
Qed.

(** ** The reference evaluator *)

(** Counting [False] among the values of a dictionary counts its keys whose
    value is [False]. *)
Lemma count_False_values (d : gmap string bool) :
  CleanFloorEvaluator.count_False (CleanFloorEvaluator.values d)
  = Z.of_nat (size (filter (fun kv : string * bool => kv.2 = false) d)).
Proof.
  unfold CleanFloorEvaluator.count_False, CleanFloorEvaluator.values.
  f_equal.
  induction d as [|location dirty d Hfresh IH] using map_ind.
  - by rewrite map_to_list_empty, map_filter_empty, map_size_empty.
  - rewrite map_to_list_insert by done.
    rewrite fmap_cons, map_filter_insert. simpl.
    destruct dirty.
    + rewrite filter_cons_False by done.
      rewrite decide_False by done.
      by rewrite delete_id.
    + rewrite filter_cons_True by done.
      rewrite decide_True by done.
      rewrite map_size_insert_None; [by rewrite <- IH|].
      apply map_lookup_filter_None. by left.
Qed.

Lemma clean_locations_nonneg (state : EnvState) : 0 ≤ clean_locations state.
Proof. unfold clean_locations. lia. Qed.

Lemma sum_clean_locations_nonneg (states : list EnvState) :
  0 ≤ sum (clean_locations <$> states).
Proof.
  induction states as [|state states IH]; [done|].
  rewrite fmap_cons. simpl. pose proof (clean_locations_nonneg state). lia.
Qed.

Lemma sum_app (xs ys : list Z) : sum (xs ++ ys) = sum xs + sum ys.
Proof. induction xs as [|x xs IH]; simpl; lia. Qed.

(** The evaluator never raises, and a sequence of updates adds to the
    score the number of clean locations of each state. *)
Lemma evaluator_loop (states : list EnvState) (self : CleanFloorEvaluator.self) :
  for_each states CleanFloorEvaluator.update self
  = ({| CleanFloorEvaluator._score :=
          CleanFloorEvaluator._score self + sum (clean_locations <$> states) |},
     Ret tt).
Proof.
  revert self. induction states as [|state states IH]; intros self.
  - simpl. destruct self. unfold mret, py_ret. simpl. do 3 f_equal. lia.
  - rewrite for_each_cons. unfold CleanFloorEvaluator.update at 1.
    rewrite IH, count_False_values. simpl. fold (clean_locations state).
    by rewrite Z.add_assoc.
Qed.

(** C5. Whatever the states passed in order to
    [CleanFloorEvaluator.update], no call raises and the score grows by the
    sum, over the calls, of the number of locations whose [dirt_status] is
    [False]: on a new evaluator, whose score is 0, the score is that sum.
    More calls never make the score decrease. *)
Theorem evaluator_score_is_sum (states more : list EnvState)
    (self : CleanFloorEvaluator.self) :
  let after := fun sts s => (for_each sts CleanFloorEvaluator.update s).1 in
  (for_each states CleanFloorEvaluator.update self).2 = Ret tt ∧
  CleanFloorEvaluator.score (after states self)
    = CleanFloorEvaluator.score self + sum (clean_locations <$> states) ∧
  CleanFloorEvaluator.__init__ = Ret {| CleanFloorEvaluator._score := 0 |} ∧
  CleanFloorEvaluator.score (after states {| CleanFloorEvaluator._score := 0 |})
    = sum (clean_locations <$> states) ∧
  CleanFloorEvaluator.score self ≤ CleanFloorEvaluator.score (after states self) ∧
  CleanFloorEvaluator.score (after states self)
    ≤ CleanFloorEvaluator.score (after (states ++ more) self).
Proof.
  intros after. unfold after. rewrite !evaluator_loop.
  unfold CleanFloorEvaluator.score. simpl.
  rewrite fmap_app, sum_app.
  pose proof (sum_clean_locations_nonneg states).
  pose proof (sum_clean_locations_nonneg more).
  repeat split; lia.
Qed.

(** ** The always-suck agent in the two-location world *)

Lemma observable_dirty_world :
  BasicVacuumWorld.observable_state dirty_world
  = (dirty_world, Ret {| obs_agent_location := "A"; obs_is_dirty := true |}).
Proof. vm_compute. reflexivity. Qed.

Lemma observable_cleaned_world :
  BasicVacuumWorld.observable_state cleaned_world
  = (cleaned_world, Ret {| obs_agent_location := "A"; obs_is_dirty := false |}).
Proof. vm_compute. reflexivity. Qed.

Lemma suck_dirty_world :
  BasicVacuumWorld.update (PyStr "SUCK") dirty_world = (cleaned_world, Ret tt).
Proof. vm_compute. reflexivity. Qed.

Lemma suck_cleaned_world :
  BasicVacuumWorld.update (PyStr "SUCK") cleaned_world = (cleaned_world, Ret tt).
Proof. vm_compute. reflexivity. Qed.

Lemma cleaned_world_points :
  CleanFloorEvaluator.count_False
    (CleanFloorEvaluator.values (BasicVacuumWorld._dirt_status cleaned_world)) = 1.
Proof. vm_compute. reflexivity. Qed.

(** One step of the always-suck agent at [A], [B] dirty: [A] is clean
    afterwards, [B] still dirty, and the evaluator awards one point. *)
Lemma sucky_step (t : Z)
    (w : World BasicVacuumWorld.self unit CleanFloorEvaluator.self) :
  w_env w = dirty_world ∨ w_env w = cleaned_world →
  step BasicVacuumWorld.class (SuckyAgent.class Observation)
       CleanFloorEvaluator.class t w
  = ({| w_env := cleaned_world;
        w_agent := w_agent w;
        w_eval := {| CleanFloorEvaluator._score :=
                       CleanFloorEvaluator._score (w_eval w) + 1 |};
        w_log := w_log w ++ [LOG_AGENT_DECISION t (PyStr "SUCK")];
        w_calls := w_calls w ++ cycle t |}, Ret tt).
Proof.
  destruct w as [e a v log calls]. simpl. intros Henv.
  unfold step, try_except, on_environment, on_agent, on_evaluator,
    logger_info, record, mbind, py_bind.
  cbn [env_observable_state env_update env_state agent_decide eval_update
       BasicVacuumWorld.class SuckyAgent.class CleanFloorEvaluator.class
       SuckyAgent.decide w_env w_agent w_eval w_log w_calls raised].
  destruct Henv as [-> | ->].
  - rewrite observable_dirty_world.
    cbn [w_env w_agent w_eval w_log w_calls raised].
    rewrite suck_dirty_world.
    cbn [w_env w_agent w_eval w_log w_calls raised BasicVacuumWorld.state].
    unfold CleanFloorEvaluator.update.
    cbn [st_dirt_status w_env w_agent w_eval w_log w_calls raised].
    rewrite cleaned_world_points.
    unfold cycle, returned. by rewrite <- !app_assoc.
  - rewrite observable_cleaned_world.
    cbn [w_env w_agent w_eval w_log w_calls raised].
    rewrite suck_cleaned_world.
    cbn [w_env w_agent w_eval w_log w_calls raised BasicVacuumWorld.state].
    unfold CleanFloorEvaluator.update.
    cbn [st_dirt_status w_env w_agent w_eval w_log w_calls raised].
    rewrite cleaned_world_points.
    unfold cycle, returned. by rewrite <- !app_assoc.
Qed.

(** Any number of steps once [A] is clean: one point per step. *)
Lemma sucky_loop (ts : list Z)
    (w : World BasicVacuumWorld.self unit CleanFloorEvaluator.self) :
  w_env w = cleaned_world →
  for_each ts (step BasicVacuumWorld.class (SuckyAgent.class Observation)
                    CleanFloorEvaluator.class) w
  = ({| w_env := cleaned_world;
        w_agent := w_agent w;
        w_eval := {| CleanFloorEvaluator._score :=
                       CleanFloorEvaluator._score (w_eval w) + Z.of_nat (length ts) |};
        w_log := w_log w ++ ((fun t => LOG_AGENT_DECISION t (PyStr "SUCK")) <$> ts);
        w_calls := w_calls w ++ concat (cycle <$> ts) |}, Ret tt).
Proof.
  revert w. induction ts as [|t ts IH]; intros w Henv.
  - destruct w as [e a [v] log calls]. simpl in *. subst e.
    unfold mret, py_ret. by rewrite !app_nil_r, Z.add_0_r.
  - rewrite for_each_cons, sucky_step by auto.
    rewrite IH by done.
    cbn [w_env w_agent w_eval w_log w_calls CleanFloorEvaluator._score].
    rewrite !fmap_cons, !concat_cons, <- !app_assoc.
    replace (Z.of_nat (length (t :: ts))) with (1 + Z.of_nat (length ts))
      by (simpl length; lia).
    by rewrite Z.add_assoc.
Qed.

(** The whole run from the initial state [A], dirty, dirty. *)
Lemma sucky_run (ts : list Z) (t : Z)
    (w : World BasicVacuumWorld.self unit CleanFloorEvaluator.self) :
  w_env w = dirty_world →
  for_each (t :: ts) (step BasicVacuumWorld.class (SuckyAgent.class Observation)
                           CleanFloorEvaluator.class) w
  = ({| w_env := cleaned_world;
        w_agent := w_agent w;
        w_eval := {| CleanFloorEvaluator._score :=
                       CleanFloorEvaluator._score (w_eval w)
                       + Z.of_nat (length (t :: ts)) |};
        w_log := w_log w
                 ++ ((fun t => LOG_AGENT_DECISION t (PyStr "SUCK")) <$> t :: ts);
        w_calls := w_calls w ++ concat (cycle <$> t :: ts) |}, Ret tt).
Proof.
  intros Henv. rewrite for_each_cons, sucky_step by auto.
  rewrite sucky_loop by done.
  cbn [w_env w_agent w_eval w_log w_calls CleanFloorEvaluator._score].
  rewrite !fmap_cons, !concat_cons, <- !app_assoc.
  replace (Z.of_nat (length (t :: ts))) with (1 + Z.of_nat (length ts))
    by (simpl length; lia).
  by rewrite Z.add_assoc.
Qed.

Lemma range_cons (lo hi : Z) : lo < hi → range lo hi = lo :: range (lo + 1) hi.
Proof.
  intros Hlt. unfold range. rewrite seqZ_cons by lia. f_equal. f_equal; lia.
Qed.

(** The first [k] steps of the run of the always-suck agent. *)
Lemma sucky_prefix (k : Z) (log : list LogRecord) :
  1 ≤ k →
  for_each (range 1 (k + 1))
    (step BasicVacuumWorld.class (SuckyAgent.class Observation)
          CleanFloorEvaluator.class)
    (initial_world BasicVacuumWorld.class (SuckyAgent.class Observation)
       CleanFloorEvaluator.class dirty_world tt
       {| CleanFloorEvaluator._score := 0 |} log)
  = ({| w_env := cleaned_world;
        w_agent := tt;
        w_eval := {| CleanFloorEvaluator._score := k |};
        w_log := log ++ ((fun t => LOG_AGENT_DECISION t (PyStr "SUCK"))
                           <$> range 1 (k + 1));
        w_calls := concat (cycle <$> range 1 (k + 1)) |}, Ret tt).
Proof.
  intros Hk.
  assert (Hlen : Z.of_nat (length (range 1 (k + 1))) = k).
  { rewrite range_length. lia. }
  rewrite (range_cons 1 (k + 1)) in Hlen |- * by lia.
  rewrite sucky_run by reflexivity. simpl w_calls. simpl w_log. simpl w_agent.
  cbn [w_eval initial_world CleanFloorEvaluator._score].
  by rewrite Hlen.
Qed.

(** C6. With the always-suck agent, the reference environment built from
    the location [A] and two tokens that both mean dirty, and a new
    reference evaluator, the 1000-step loop returns and the final score is
    1000, the same for any two such runs: location [A] is clean and
    location [B] is dirty after every step, the agent stays at [A], and
    after [k] steps the score is [k].  [main] then logs the completion and
    the score 1000. *)
Theorem sucky_agent_final_score (token_A token_B : string)
    (log1 log2 : list LogRecord) :
  BasicVacuumWorld._convert_to_dirt_status token_A = Ret true →
  BasicVacuumWorld._convert_to_dirt_status token_B = Ret true →
  let loop := fun ts log =>
    for_each ts
      (step BasicVacuumWorld.class (SuckyAgent.class Observation)
            CleanFloorEvaluator.class)
      (initial_world BasicVacuumWorld.class (SuckyAgent.class Observation)
         CleanFloorEvaluator.class dirty_world tt
         {| CleanFloorEvaluator._score := 0 |} log) in
  let run := fun log =>
    run_experiment BasicVacuumWorld.class (SuckyAgent.class Observation)
      CleanFloorEvaluator.class
      (initial_world BasicVacuumWorld.class (SuckyAgent.class Observation)
         CleanFloorEvaluator.class dirty_world tt
         {| CleanFloorEvaluator._score := 0 |} log) in
  BasicVacuumWorld.__init__ ["A"] [token_A; token_B] = Ret dirty_world ∧
  (run log1).2 = Ret tt ∧
  CleanFloorEvaluator.score (w_eval (run log1).1) = 1000 ∧
  CleanFloorEvaluator.score (w_eval (run log1).1)
    = CleanFloorEvaluator.score (w_eval (run log2).1) ∧
  (∀ k, 1 ≤ k ≤ 1000 →
     CleanFloorEvaluator.score (w_eval (loop (range 1 (k + 1)) log1).1) = k ∧
     BasicVacuumWorld._agent_location (w_env (loop (range 1 (k + 1)) log1).1) = "A" ∧
     BasicVacuumWorld._dirt_status (w_env (loop (range 1 (k + 1)) log1).1) !! "A"
       = Some false ∧
     BasicVacuumWorld._dirt_status (w_env (loop (range 1 (k + 1)) log1).1) !! "B"
       = Some true) ∧
  main BasicVacuumWorld.class (SuckyAgent.class Observation)
       CleanFloorEvaluator.class (environment_args ["A"] [token_A; token_B]) log1
    = (log1 ++ [LOG_HELLO]
         ++ ((fun t => LOG_AGENT_DECISION t (PyStr "SUCK")) <$> range 1 1001)
         ++ [LOG_COMPLETE; LOG_SCORE 1000], Ret None).
Proof.
  intros HA HB loop run.
  assert (Hinit : BasicVacuumWorld.__init__ ["A"] [token_A; token_B] = Ret dirty_world).
  { unfold BasicVacuumWorld.__init__. simpl.
    replace (str_in "A" BasicVacuumWorld.locations) with true by reflexivity.
    simpl. by rewrite HA, HB. }
  assert (Hrun : ∀ log, run log = loop (range 1 (1000 + 1)) log) by reflexivity.
  split; [exact Hinit|].
  unfold loop in *. rewrite !Hrun, !sucky_prefix by lia. simpl.
  split; [done|]. split; [done|]. split; [done|].
  split.
  - intros k Hk. rewrite sucky_prefix by lia. simpl.
    repeat split; vm_compute; reflexivity.
  - unfold main. simpl eval_new. simpl agent_new. simpl env_new.
    unfold CleanFloorEvaluator.__init__.
    rewrite new_environment_args, Hinit.
    fold (run (log1 ++ [LOG_HELLO])). rewrite Hrun. unfold loop.
    rewrite sucky_prefix by lia.
    unfold report_results. simpl. by rewrite <- !app_assoc.
Qed.

(** ** The host program *)

(** The runner logs nothing but decisions. *)
Lemma run_experiment_log {Obs St : Type}
    (environment : Environment Obs St) (agent : Agent Obs)
    (evaluator : Evaluator St)
    (w : World (env_self environment) (agent_self agent) (eval_self evaluator)) :
  ∃ decisions,
    w_log (run_experiment environment agent evaluator w).1 = w_log w ++ decisions ∧
    Forall is_decision decisions.
Proof.
  destruct (run_experiment environment agent evaluator w) as [w' r] eqn:Hrun.
  by apply loop_log in Hrun.
Qed.

(** C4, as the code has it.  When the three components are constructed,
    [main] logs after the greeting the decisions of the run and then, by
    the way [run_experiment] ends: on an [ExperimentError], the fault record
    with the failing component and the cause, and then still the final
    score record, with the score the evaluator accumulated over the steps
    made before the fault, and no completion record; on normal completion,
    the completion record and the score record; on any other exception,
    nothing more, and the exception leaves [main].  [main] returns [None]
    in the first two cases. *)
Theorem fault_report_then_score {Obs St : Type}
    (environment : Environment Obs St) (agent : Agent Obs)
    (evaluator : Evaluator St)
    (environment_args : gmap string (list string)) (log : list LogRecord)
    (e : env_self environment) (a : agent_self agent) (v : eval_self evaluator) :
  env_new environment environment_args = Ret e →
  agent_new agent = Ret a →
  eval_new evaluator = Ret v →
  let w' := (run_experiment environment agent evaluator
               (initial_world environment agent evaluator e a v
                  (log ++ [LOG_HELLO]))).1 in
  let r := (run_experiment environment agent evaluator
              (initial_world environment agent evaluator e a v
                 (log ++ [LOG_HELLO]))).2 in
  ∃ decisions,
    Forall is_decision decisions ∧
    w_log w' = (log ++ [LOG_HELLO]) ++ decisions ∧
    (∀ component cause,
       r = Raise (ExperimentError component cause) →
       main environment agent evaluator environment_args log
       = (log ++ [LOG_HELLO] ++ decisions
            ++ [LOG_EXPERIMENT_ERROR component cause;
                LOG_SCORE (eval_score evaluator (w_eval w'))], Ret None)) ∧
    (r = Ret tt →
       main environment agent evaluator environment_args log
       = (log ++ [LOG_HELLO] ++ decisions
            ++ [LOG_COMPLETE; LOG_SCORE (eval_score evaluator (w_eval w'))],
          Ret None)) ∧
    (∀ c args,
       r = Raise (Exc c args) →
       main environment agent evaluator environment_args log
       = (log ++ [LOG_HELLO] ++ decisions, Raise (Exc c args))).
Proof.
  intros He Ha Hv.
  destruct (run_experiment_log environment agent evaluator
              (initial_world environment agent evaluator e a v (log ++ [LOG_HELLO])))
    as (decisions & Hlog & Hdec).
  simpl. exists decisions. split; [exact Hdec|]. split; [exact Hlog|].
  unfold main. rewrite Hv, Ha, He.
  destruct (run_experiment environment agent evaluator _) as [w' r].
  simpl in *. rewrite Hlog.
  split; [|split].
  - intros component cause ->. unfold report_results.
    by rewrite <- !app_assoc.
  - intros ->. unfold report_results. by rewrite <- !app_assoc.
  - intros c args ->. by rewrite <- !app_assoc.
Qed.

(** C4, as stated, fails: with the agent [RandomAgent], whose [decide]
    returns [None], and the default environment and evaluator, the first
    [update] is rejected, [main] logs the fault and then the score 0. *)
Lemma no_score_after_fault_counterexample :
  main BasicVacuumWorld.class (RandomAgent.class Observation)
       CleanFloorEvaluator.class ∅ []
  = ([LOG_HELLO; LOG_AGENT_DECISION 1 PyNone;
      LOG_EXPERIMENT_ERROR "agent" (Exc ValueError [PyNone]);
      LOG_SCORE 0], Ret None) ∧
  ¬ no_score_after_fault
      (main BasicVacuumWorld.class (RandomAgent.class Observation)
            CleanFloorEvaluator.class ∅ []).1.
Proof.
  assert (Hmain : main BasicVacuumWorld.class (RandomAgent.class Observation)
                       CleanFloorEvaluator.class ∅ []
                  = ([LOG_HELLO; LOG_AGENT_DECISION 1 PyNone;
                      LOG_EXPERIMENT_ERROR "agent" (Exc ValueError [PyNone]);
                      LOG_SCORE 0], Ret None)).
  { vm_compute. reflexivity. }
  split; [exact Hmain|].
  rewrite Hmain. unfold no_score_after_fault. simpl. intros Hclaim.
  apply (Hclaim) with (score := 0).
  - exists "agent", (Exc ValueError [PyNone]). repeat constructor.
  - repeat constructor.
Qed.

(** C1, as stated, fails: an agent that sucks once and is then
    interrupted in [decide] ([KeyboardInterrupt] is not an [Exception])
    ends the run with the interrupt itself, not with a fault attributed to
    the agent. *)
Lemma decide_fault_classification_counterexample :
  let interrupted := Exc KeyboardInterrupt [] in
  let script := [Ret (PyStr "SUCK"); Raise interrupted] in
  Called Decide 2 (Some interrupted)
    ∈ w_calls (run_experiment BasicVacuumWorld.class
                 (ScriptedAgent.class Observation script)
                 CleanFloorEvaluator.class (scripted_world script)).1 ∧
  (run_experiment BasicVacuumWorld.class (ScriptedAgent.class Observation script)
     CleanFloorEvaluator.class (scripted_world script)).2 = Raise interrupted ∧
  ¬ decide_fault_as_stated
      (run_experiment BasicVacuumWorld.class (ScriptedAgent.class Observation script)
         CleanFloorEvaluator.class (scripted_world script)).2
      interrupted.
Proof.
  intros interrupted script.
  assert (Hrun : (run_experiment BasicVacuumWorld.class
                    (ScriptedAgent.class Observation script)
                    CleanFloorEvaluator.class (scripted_world script)).2
                 = Raise interrupted) by (vm_compute; reflexivity).
  split; [apply (list_elem_of_lookup_2 _ 6); vm_compute; reflexivity|].
  split; [exact Hrun|].
  rewrite Hrun. intros [_ Hagent]. specialize (Hagent eq_refl). discriminate.
Qed.

(** C2, as stated, fails: an environment whose [update] is interrupted
    ([KeyboardInterrupt] is not an [Exception]) ends the run with the
    interrupt itself, not with a fault attributed to the environment. *)
Lemma action_vocabulary_enforcement_counterexample :
  let interrupted := Exc KeyboardInterrupt [] in
  let w := initial_world (BrokenVacuumWorld.class interrupted)
             (SuckyAgent.class Observation) CleanFloorEvaluator.class
             dirty_world tt {| CleanFloorEvaluator._score := 0 |} [] in
  Called Update 1 (Some interrupted)
    ∈ w_calls (run_experiment (BrokenVacuumWorld.class interrupted)
                 (SuckyAgent.class Observation) CleanFloorEvaluator.class w).1 ∧
  (run_experiment (BrokenVacuumWorld.class interrupted)
     (SuckyAgent.class Observation) CleanFloorEvaluator.class w).2
  = Raise interrupted ∧
  ¬ update_fault_as_stated
      (run_experiment (BrokenVacuumWorld.class interrupted)
         (SuckyAgent.class Observation) CleanFloorEvaluator.class w).2
      interrupted.
Proof.
  intros interrupted w.
  assert (Hrun : (run_experiment (BrokenVacuumWorld.class interrupted)
                    (SuckyAgent.class Observation) CleanFloorEvaluator.class w).2
                 = Raise interrupted) by (vm_compute; reflexivity).
  split; [apply (list_elem_of_lookup_2 _ 2); vm_compute; reflexivity|].
  split; [exact Hrun|].
  rewrite Hrun. intros [_ Henv]. specialize (Henv eq_refl). discriminate.
Qed.

(** ** The properties on concrete runs *)

(** Three agents: one sucks twice and then rejects its observation with a
    [ValueError] (environment fault at step 3, after two complete steps);
    one fails at once with a [RuntimeError] (agent fault); one sucks once
    and is then interrupted (the interrupt leaves the run). *)
Lemma decide_fault_classification_witness :
  let rejecting := Exc ValueError [PyStr "bad observation"] in
  let failing := Exc RuntimeError [PyStr "no plan"] in
  let interrupted := Exc KeyboardInterrupt [] in
  let run := fun script =>
    run_experiment BasicVacuumWorld.class (ScriptedAgent.class Observation script)
      CleanFloorEvaluator.class (scripted_world script) in
  (run [Ret (PyStr "SUCK"); Ret (PyStr "SUCK"); Raise rejecting]).2
  = Raise (ExperimentError "environment" rejecting) ∧
  completed EvaluatorUpdate
    (w_calls (run [Ret (PyStr "SUCK"); Ret (PyStr "SUCK"); Raise rejecting]).1)
  = 2%nat ∧
  (run [Raise failing]).2 = Raise (ExperimentError "agent" failing) ∧
  (run [Ret (PyStr "SUCK"); Raise interrupted]).2 = Raise interrupted.
Proof.
  intros rejecting failing interrupted run.
  pose (observed := {| obs_agent_location := "A"; obs_is_dirty := true |}).
  destruct (decide_fault_classification BasicVacuumWorld.class
              (ScriptedAgent.class Observation
                 [Ret (PyStr "SUCK"); Ret (PyStr "SUCK"); Raise rejecting])
              CleanFloorEvaluator.class
              (scripted_world [Ret (PyStr "SUCK"); Ret (PyStr "SUCK"); Raise rejecting])
              (scripted_world [Raise rejecting]) 3 1 [] rejecting
              dirty_world observed [])
    as (Hvalue & _ & _ & Hrun1 & _ & _ & _ & Hsteps & _).
  { reflexivity. }
  { apply (list_elem_of_lookup_2 _ 11). vm_compute. reflexivity. }
  { vm_compute. reflexivity. }
  { reflexivity. }
  destruct (decide_fault_classification BasicVacuumWorld.class
              (ScriptedAgent.class Observation [Raise failing])
              CleanFloorEvaluator.class
              (scripted_world [Raise failing])
              (scripted_world [Raise failing]) 1 1 [] failing
              dirty_world observed [])
    as (_ & Hother & _ & Hrun2 & _).
  { reflexivity. }
  { apply (list_elem_of_lookup_2 _ 1). vm_compute. reflexivity. }
  { vm_compute. reflexivity. }
  { reflexivity. }
  destruct (decide_fault_classification BasicVacuumWorld.class
              (ScriptedAgent.class Observation [Ret (PyStr "SUCK"); Raise interrupted])
              CleanFloorEvaluator.class
              (scripted_world [Ret (PyStr "SUCK"); Raise interrupted])
              (scripted_world [Raise interrupted]) 2 1 [] interrupted
              dirty_world observed [])
    as (_ & _ & Hbase & Hrun3 & _).
  { reflexivity. }
  { apply (list_elem_of_lookup_2 _ 6). vm_compute. reflexivity. }
  { vm_compute. reflexivity. }
  { reflexivity. }
  rewrite (Hvalue eq_refl) in Hrun1.
  rewrite (Hother eq_refl eq_refl) in Hrun2.
  rewrite (Hbase eq_refl) in Hrun3.
  split; [exact Hrun1|].
  split; [exact Hsteps|].
  split; [exact Hrun2|].
  exact Hrun3.
Defined.

(** An agent that sucks once and then answers ['UP']: the environment
    rejects the action and the run stops at step 2 with an agent fault.  An
    environment whose [update] fails with a [RuntimeError]: environment
    fault at step 1.  An environment whose [update] is interrupted: the
    interrupt leaves the run. *)
Lemma action_vocabulary_enforcement_witness :
  let script := [Ret (PyStr "SUCK"); Ret (PyStr "UP")] in
  let jammed := Exc RuntimeError [PyStr "jammed"] in
  let interrupted := Exc KeyboardInterrupt [] in
  let broken := fun e =>
    run_experiment (BrokenVacuumWorld.class e) (SuckyAgent.class Observation)
      CleanFloorEvaluator.class
      (initial_world (BrokenVacuumWorld.class e) (SuckyAgent.class Observation)
         CleanFloorEvaluator.class dirty_world tt
         {| CleanFloorEvaluator._score := 0 |} []) in
  BasicVacuumWorld.update (PyStr "UP") dirty_world
  = (dirty_world, Raise (Exc ValueError [PyStr "UP"])) ∧
  (run_experiment BasicVacuumWorld.class (ScriptedAgent.class Observation script)
     CleanFloorEvaluator.class (scripted_world script)).2
  = Raise (ExperimentError "agent" (Exc ValueError [PyStr "UP"])) ∧
  completed EvaluatorUpdate
    (w_calls (run_experiment BasicVacuumWorld.class
                (ScriptedAgent.class Observation script)
                CleanFloorEvaluator.class (scripted_world script)).1) = 1%nat ∧
  (broken jammed).2 = Raise (ExperimentError "environment" jammed) ∧
  (broken interrupted).2 = Raise interrupted.
Proof.
  intros script jammed interrupted broken.
  pose (observed := {| obs_agent_location := "A"; obs_is_dirty := true |}).
  destruct (action_vocabulary_enforcement BasicVacuumWorld.class
              (ScriptedAgent.class Observation script) CleanFloorEvaluator.class
              (scripted_world script) 2 (Exc ValueError [PyStr "UP"])
              (ScriptedAgent.class Observation [Ret (PyStr "UP")])
              CleanFloorEvaluator.class (scripted_world [Ret (PyStr "UP")])
              1 [] observed [] dirty_world (PyStr "UP"))
    as (Hupdate & _ & _ & Hvalue & _ & _ & Hrun1 & _ & _ & Hsteps & _).
  { apply (bool_decide_unpack _). vm_compute. exact I. }
  { vm_compute. reflexivity. }
  { reflexivity. }
  { reflexivity. }
  { apply (list_elem_of_lookup_2 _ 7). vm_compute. reflexivity. }
  destruct (action_vocabulary_enforcement (BrokenVacuumWorld.class jammed)
              (SuckyAgent.class Observation) CleanFloorEvaluator.class
              (initial_world (BrokenVacuumWorld.class jammed)
                 (SuckyAgent.class Observation) CleanFloorEvaluator.class
                 dirty_world tt {| CleanFloorEvaluator._score := 0 |} [])
              1 jammed
              (ScriptedAgent.class Observation [Ret (PyStr "UP")])
              CleanFloorEvaluator.class (scripted_world [Ret (PyStr "UP")])
              1 [] observed [] dirty_world (PyStr "UP"))
    as (_ & _ & _ & _ & Hother & _ & Hrun2 & _).
  { apply (bool_decide_unpack _). vm_compute. exact I. }
  { vm_compute. reflexivity. }
  { reflexivity. }
  { reflexivity. }
  { apply (list_elem_of_lookup_2 _ 2). vm_compute. reflexivity. }
  destruct (action_vocabulary_enforcement (BrokenVacuumWorld.class interrupted)
              (SuckyAgent.class Observation) CleanFloorEvaluator.class
              (initial_world (BrokenVacuumWorld.class interrupted)
                 (SuckyAgent.class Observation) CleanFloorEvaluator.class
                 dirty_world tt {| CleanFloorEvaluator._score := 0 |} [])
              1 interrupted
              (ScriptedAgent.class Observation [Ret (PyStr "UP")])
              CleanFloorEvaluator.class (scripted_world [Ret (PyStr "UP")])
              1 [] observed [] dirty_world (PyStr "UP"))
    as (_ & _ & _ & _ & _ & Hbase & Hrun3 & _).
  { apply (bool_decide_unpack _). vm_compute. exact I. }
  { vm_compute. reflexivity. }
  { reflexivity. }
  { reflexivity. }
  { apply (list_elem_of_lookup_2 _ 2). vm_compute. reflexivity. }
  rewrite (Hvalue eq_refl) in Hrun1.
  rewrite (Hother eq_refl eq_refl) in Hrun2.
  rewrite (Hbase eq_refl) in Hrun3.
  split; [exact Hupdate|].
  split; [exact Hrun1|].
  split; [exact Hsteps|].
  split; [exact Hrun2|].
  exact Hrun3.
Defined.

(** The always-suck agent never makes a call raise: its run returns, and
    it leaves what the 1000 cycles leave. *)
Lemma fixed_horizon_witness :
  let w := initial_world BasicVacuumWorld.class (SuckyAgent.class Observation)
             CleanFloorEvaluator.class dirty_world tt
             {| CleanFloorEvaluator._score := 0 |} [] in
  spec_cycles BasicVacuumWorld.class (SuckyAgent.class Observation)
    CleanFloorEvaluator.class (range 1 1001) w
  = Some (run_experiment BasicVacuumWorld.class (SuckyAgent.class Observation)
            CleanFloorEvaluator.class w).1 ∧
  completed Decide
    (w_calls (run_experiment BasicVacuumWorld.class (SuckyAgent.class Observation)
                CleanFloorEvaluator.class w).1) = 1000%nat ∧
  CleanFloorEvaluator.score
    (w_eval (run_experiment BasicVacuumWorld.class (SuckyAgent.class Observation)
               CleanFloorEvaluator.class w).1) = 1000.
Proof.
  intros w.
  destruct (fixed_horizon BasicVacuumWorld.class (SuckyAgent.class Observation)
              CleanFloorEvaluator.class w)
    as (_ & _ & Hreturned).
  - reflexivity.
  - destruct Hreturned as (Hcycles & _ & _ & Hdecide & _).
    + vm_compute. reflexivity.
    + split; [exact Hcycles|]. split; [exact Hdecide|]. vm_compute. reflexivity.
Defined.

(** The program run with [--agent RandomAgent]: [decide] returns [None],
    the environment rejects it, the run ends with an [ExperimentError] at
    the first step, and the fault record is followed by the score record. *)
Lemma fault_report_then_score_witness :
  main BasicVacuumWorld.class (RandomAgent.class Observation)
       CleanFloorEvaluator.class ∅ []
  = ([LOG_HELLO; LOG_AGENT_DECISION 1 PyNone;
      LOG_EXPERIMENT_ERROR "agent" (Exc ValueError [PyNone]); LOG_SCORE 0],
     Ret None).
Proof.
  destruct (fault_report_then_score BasicVacuumWorld.class
              (RandomAgent.class Observation) CleanFloorEvaluator.class
              ∅ [] dirty_world tt {| CleanFloorEvaluator._score := 0 |})
    as (decisions & _ & Hlog & Hfault & _).
  - vm_compute. reflexivity.
  - reflexivity.
  - reflexivity.
  - assert (decisions = [LOG_AGENT_DECISION 1 PyNone]) as ->.
    { apply (app_inv_head ([] ++ [LOG_HELLO])). rewrite <- Hlog.
      vm_compute. reflexivity. }
    apply (Hfault "agent" (Exc ValueError [PyNone])).
    vm_compute. reflexivity.
Defined.

(** The tokens [Dirty] and [YES]: the final score is 1000. *)
Lemma sucky_agent_final_score_witness :
  BasicVacuumWorld.__init__ ["A"] ["Dirty"; "YES"] = Ret dirty_world ∧
  CleanFloorEvaluator.score
    (w_eval (run_experiment BasicVacuumWorld.class (SuckyAgent.class Observation)
               CleanFloorEvaluator.class
               (initial_world BasicVacuumWorld.class (SuckyAgent.class Observation)
                  CleanFloorEvaluator.class dirty_world tt
                  {| CleanFloorEvaluator._score := 0 |} [])).1) = 1000.
Proof.
  destruct (sucky_agent_final_score "Dirty" "YES" [] [])
    as (Hinit & _ & Hscore & _).
  - vm_compute. reflexivity.
  - vm_compute. reflexivity.
  - split; [exact Hinit | exact Hscore].
Defined.

(** In the initial state, the observation is the same whether [B] is
    dirty or clean. *)
Lemma observation_leakage_witness :
  (BasicVacuumWorld.observable_state
     {| BasicVacuumWorld._agent_location := "A";
        BasicVacuumWorld._dirt_status := dict_of [("A", true); ("B", false)] |}).2
  = (BasicVacuumWorld.observable_state dirty_world).2.
Proof.
  destruct (observation_leakage dirty_world
              {| BasicVacuumWorld._agent_location := "A";
                 BasicVacuumWorld._dirt_status :=
                   dict_of [("A", true); ("B", false)] |})
    as [_ Hsame].
  - apply (reachable_init ["A"] ["t"; "t"]). vm_compute. reflexivity.
  - apply Hsame; vm_compute; reflexivity.
Defined.

(** Sucking at [A] in the initial state leaves [B] dirty. *)
Lemma suck_at_A_state_isolation_witness :
  BasicVacuumWorld._dirt_status
    (BasicVacuumWorld.update (PyStr "SUCK") dirty_world).1 !! "B"
  = BasicVacuumWorld._dirt_status dirty_world !! "B".
Proof.
  destruct (suck_at_A_state_isolation dirty_world) as (_ & _ & _ & HB & _).
  - reflexivity.
  - exact HB.
Defined.

(** The command line [--env-agent-location A --env-dirt-status t dusty]:
    the program stops before the loop. *)
Lemma bad_construction_rejection_witness :
  ∃ arg,
    BasicVacuumWorld.__init__ ["A"] ["t"; "dusty"] = Raise (Exc ValueError [arg]) ∧
    isinstance_ValueError (Exc ValueError [arg]) = true ∧
    main BasicVacuumWorld.class (SuckyAgent.class Observation)
         CleanFloorEvaluator.class (environment_args ["A"] ["t"; "dusty"]) []
    = ([] ++ [LOG_HELLO; LOG_ENVIRONMENT_INIT_ERROR arg], Ret (Some 1)).
Proof.
  apply (bad_construction_rejection (SuckyAgent.class Observation)
           CleanFloorEvaluator.class tt {| CleanFloorEvaluator._score := 0 |}
           ["A"] ["t"; "dusty"] []).
  - reflexivity.
  - reflexivity.
  - right. exists "dusty". split; [|split].
    + apply (bool_decide_unpack _). vm_compute. exact I.
    + apply (bool_decide_unpack _). vm_compute. exact I.
    + apply (bool_decide_unpack _). vm_compute. exact I.
Defined.

(** An agent that answers ['UP'] at the first step: the environment after
    the failed step is the initial one. *)
Lemma rejected_update_leaves_state_witness :
  let script := [Ret (PyStr "UP")] in
  w_env (step BasicVacuumWorld.class (ScriptedAgent.class Observation script)
           CleanFloorEvaluator.class 1 (scripted_world script)).1 = dirty_world ∧
  (BasicVacuumWorld.update (PyStr "UP") dirty_world).1 = dirty_world.
Proof.
  intros script.
  destruct (rejected_update_leaves_state (ScriptedAgent.class Observation script)
              CleanFloorEvaluator.class (scripted_world script) 1
              (Exc ValueError [PyStr "UP"]) (Exc ValueError [PyStr "UP"])
              dirty_world (PyStr "UP"))
    as (Hself & _ & _ & Henv & _).
  - reflexivity.
  - vm_compute. reflexivity.
  - split; [exact Henv | exact Hself].
Defined.

(** What [except Exception] does not catch leaves [run_experiment] as it
    is: a [decide] that calls [sys.exit] ends the run with [SystemExit],
    not with an [ExperimentError]. *)
Example system_exit_propagates :
  let script := [Raise (Exc SystemExit [PyInt 0])] in
  (run_experiment BasicVacuumWorld.class (ScriptedAgent.class Observation script)
     CleanFloorEvaluator.class (scripted_world script)).2
  = Raise (Exc SystemExit [PyInt 0]).
Proof. vm_compute. reflexivity. Qed.

(** A fabricated environment whose [update] raises a [RuntimeError] is
    classified as an environment fault. *)
Example broken_environment_fault :
  (run_experiment (BrokenVacuumWorld.class (Exc RuntimeError [PyStr "jammed"]))
     (SuckyAgent.class Observation) CleanFloorEvaluator.class
     (initial_world (BrokenVacuumWorld.class (Exc RuntimeError [PyStr "jammed"]))
        (SuckyAgent.class Observation) CleanFloorEvaluator.class
        dirty_world tt {| CleanFloorEvaluator._score := 0 |} [])).2
  = Raise (ExperimentError "environment" (Exc RuntimeError [PyStr "jammed"])).
Proof. vm_compute. reflexivity. Qed.

(** The tokens are compared in lower case; the locations are not. *)
Example convert_upper_case :
  BasicVacuumWorld._convert_to_dirt_status "TRUE" = Ret true ∧
  BasicVacuumWorld._convert_to_dirt_status "Clean" = Ret false ∧
  BasicVacuumWorld._convert_to_dirt_status "maybe"
  = Raise (Exc ValueError [PyStr "Invalid dirt status string: maybe"]).
Proof. repeat split; vm_compute; reflexivity. Qed.

Example lower_case_location_rejected :
  BasicVacuumWorld.__init__ ["a"] ["t"; "t"] = Raise (Exc ValueError [PyStr "a"]).
Proof. vm_compute. reflexivity. Qed.

(** The default run of the program: 1000 decisions, then the completion
    and the score 1000. *)
Example default_run :
  last (main BasicVacuumWorld.class (SuckyAgent.class Observation)
             CleanFloorEvaluator.class ∅ []).1 = Some (LOG_SCORE 1000) ∧
  length (main BasicVacuumWorld.class (SuckyAgent.class Observation)
               CleanFloorEvaluator.class ∅ []).1 = 1003%nat.
Proof. split; vm_compute; reflexivity. Qed.

(** * Further properties *)

(** ** The states and transitions of the reference environment *)

Lemma eq_str_true (action : pyval) (s : string) :
  BasicVacuumWorld.eq_str action s = true → action = PyStr s.
Proof.
  destruct action as [| | |a|]; simpl; try discriminate.
  by intros ->%String.eqb_eq.
Qed.

Lemma state_of_suck (location : string) (dirty_A dirty_B : bool) :
  location = "A" ∨ location = "B" →
  BasicVacuumWorld.update (PyStr "SUCK") (state_of location dirty_A dirty_B)
  = (state_of location
       (if String.eqb location "A" then false else dirty_A)
       (if String.eqb location "B" then false else dirty_B), Ret tt).
Proof.
  intros [-> | ->]; destruct dirty_A, dirty_B; vm_compute; reflexivity.
Qed.

Lemma state_of_observable (location : string) (dirty_A dirty_B : bool) :
  location = "A" ∨ location = "B" →
  BasicVacuumWorld.observable_state (state_of location dirty_A dirty_B)
  = (state_of location dirty_A dirty_B,
     Ret {| obs_agent_location := location;
            obs_is_dirty := if String.eqb location "A" then dirty_A else dirty_B |}).
Proof.
  intros [-> | ->]; destruct dirty_A, dirty_B; vm_compute; reflexivity.
Qed.

Lemma state_of_points (location : string) (dirty_A dirty_B : bool) :
  CleanFloorEvaluator.count_False
    (CleanFloorEvaluator.values
       (BasicVacuumWorld._dirt_status (state_of location dirty_A dirty_B)))
  = point dirty_A + point dirty_B.
Proof. destruct dirty_A, dirty_B; vm_compute; reflexivity. Qed.

Lemma locations_cases (location : string) :
  location ∈ BasicVacuumWorld.locations ↔ location = "A" ∨ location = "B".
Proof. unfold BasicVacuumWorld.locations. set_solver. Qed.

(** The reachable states are among the eight states [state_of]. *)
Lemma reachable_cases (self : BasicVacuumWorld.self) :
  reachable self →
  ∃ location dirty_A dirty_B,
    (location = "A" ∨ location = "B") ∧ self = state_of location dirty_A dirty_B.
Proof.
  induction 1 as [al ds self Hinit|self action self' r _ IH Hupd].
  - destruct (init_cases al ds)
      as [(l & tA & tB & dA & dB & _ & Hl & _ & _ & _ & Heq)|[arg Heq]];
      rewrite Heq in Hinit; [|discriminate].
    injection Hinit as <-. exists l, dA, dB. split; [|done].
    by apply locations_cases.
  - destruct IH as (l & dA & dB & Hl & ->).
    destruct (BasicVacuumWorld.eq_str action "SUCK") eqn:Hsuck.
    { apply eq_str_true in Hsuck as ->.
      rewrite state_of_suck in Hupd by done. injection Hupd as <- _. eauto 10. }
    unfold BasicVacuumWorld.update in Hupd. rewrite Hsuck in Hupd.
    destruct (BasicVacuumWorld.eq_str action "RIGHT").
    { injection Hupd as <- _. exists "B", dA, dB. eauto. }
    destruct (BasicVacuumWorld.eq_str action "LEFT").
    { injection Hupd as <- _. exists "A", dA, dB. eauto. }
    injection Hupd as <- _. eauto 10.
Qed.

(** X1. Clean squares stay clean: whatever the action, accepted or
    rejected, a location whose dirt status is [False] before [update] has
    it [False] after, so the number of clean locations of the state never
    decreases. *)
Theorem clean_squares_stay_clean (self : BasicVacuumWorld.self)
    (action : pyval) (location : string) :
  BasicVacuumWorld._dirt_status self !! location = Some false →
  BasicVacuumWorld._dirt_status (BasicVacuumWorld.update action self).1 !! location
    = Some false ∧
  clean_locations (full_state self)
    ≤ clean_locations (full_state (BasicVacuumWorld.update action self).1).
Proof.
  intros Hclean.
  assert (Hkeep : ∀ l, BasicVacuumWorld._dirt_status self !! l = Some false →
            BasicVacuumWorld._dirt_status (BasicVacuumWorld.update action self).1 !! l
            = Some false).
  { intros l Hl. unfold BasicVacuumWorld.update.
    destruct (BasicVacuumWorld.eq_str action "SUCK"); simpl.
    { destruct (decide (BasicVacuumWorld._agent_location self = l)) as [->|Hne].
      - apply lookup_insert_eq.
      - by rewrite lookup_insert_ne. }
    destruct (BasicVacuumWorld.eq_str action "RIGHT"); [done|].
    by destruct (BasicVacuumWorld.eq_str action "LEFT"). }
  split; [by apply Hkeep|].
  unfold clean_locations, full_state. simpl.
  apply Nat2Z.inj_le, map_subseteq_size, map_subseteq_spec.
  intros l dirty Hl. apply map_lookup_filter_Some in Hl as [Hl Hd].
  simpl in Hd. subst dirty. apply map_lookup_filter_Some. split; [|done].
  by apply Hkeep.
Qed.

(** X2. Every action is idempotent on the reference environment: applying
    [update] a second time with the same value gives the same state and
    the same outcome as the first time.  Sucking twice, or moving twice in
    the same direction (also against the wall), is the same as once. *)
Theorem update_idempotent (self : BasicVacuumWorld.self) (action : pyval) :
  BasicVacuumWorld.update action (BasicVacuumWorld.update action self).1
  = BasicVacuumWorld.update action self.
Proof.
  unfold BasicVacuumWorld.update.
  destruct (BasicVacuumWorld.eq_str action "SUCK") eqn:Hsuck; simpl.
  { by rewrite insert_insert_eq. }
  destruct (BasicVacuumWorld.eq_str action "RIGHT") eqn:Hright; simpl; [done|].
  by destruct (BasicVacuumWorld.eq_str action "LEFT") eqn:Hleft.
Qed.

(** X3. The states a program can reach are exactly the eight states with
    the agent at [A] or [B] and one dirt status for each of [A] and [B]:
    the constructor and [update] never leave this set, and the constructor
    reaches each of its states. *)
Theorem reachable_states (self : BasicVacuumWorld.self) :
  reachable self ↔
  ∃ location dirty_A dirty_B,
    (location = "A" ∨ location = "B") ∧ self = state_of location dirty_A dirty_B.
Proof.
  split; [apply reachable_cases|].
  intros (l & dA & dB & Hl & ->).
  apply (reachable_init [l] [if dA then "t" else "f"; if dB then "t" else "f"]).
  destruct Hl as [-> | ->]; destruct dA, dB; vm_compute; reflexivity.
Qed.

(** X4. The constructor builds the state from its arguments: with a
    location among [A], [B] and two recognized tokens it returns the state
    with the agent at that location, [dirt_status['A']] the meaning of the
    first token and [dirt_status['B']] that of the second, and nothing
    else in [dirt_status]. *)
Theorem init_builds_state (location token_A token_B : string)
    (dirty_A dirty_B : bool) :
  location ∈ BasicVacuumWorld.locations →
  BasicVacuumWorld._convert_to_dirt_status token_A = Ret dirty_A →
  BasicVacuumWorld._convert_to_dirt_status token_B = Ret dirty_B →
  ∃ self,
    BasicVacuumWorld.__init__ [location] [token_A; token_B] = Ret self ∧
    BasicVacuumWorld._agent_location self = location ∧
    BasicVacuumWorld._dirt_status self !! "A" = Some dirty_A ∧
    BasicVacuumWorld._dirt_status self !! "B" = Some dirty_B ∧
    dom (BasicVacuumWorld._dirt_status self) = ({["A"; "B"]} : gset string).
Proof.
  intros Hl HA HB.
  destruct (init_cases [location] [token_A; token_B])
    as [(l & tA & tB & dA & dB & [= <-] & _ & [= <- <-] & HA' & HB' & Heq)|[arg Heq]].
  - rewrite HA in HA'. rewrite HB in HB'. injection HA' as <-. injection HB' as <-.
    eexists. split; [exact Heq|]. simpl.
    split; [done|]. split; [by destruct dirty_A, dirty_B; vm_compute|].
    split; [by destruct dirty_A, dirty_B; vm_compute|].
    apply dom_two_locations.
  - exfalso. revert Heq. unfold BasicVacuumWorld.__init__. simpl.
    apply str_in_spec in Hl. rewrite Hl. simpl.
    rewrite HA, HB. discriminate.
Qed.

(** ** The runner on the reference environment and evaluator *)

Ltac unfold_basic_step :=
  unfold step, try_except, on_environment, on_agent, on_evaluator,
    logger_info, record, mbind, py_bind;
  cbn [env_observable_state env_update env_state eval_update
       BasicVacuumWorld.class CleanFloorEvaluator.class
       w_env w_agent w_eval w_log w_calls raised].

(** One step with the reference environment and evaluator, whatever the
    agent: either the step returns, after an accepted action, and the
    evaluator has awarded the clean locations of the new state, or it
    raises and neither the environment nor the score has changed. *)
Lemma basic_step_cases (agent : Agent Observation) (t : Z)
    (w w' : World BasicVacuumWorld.self (agent_self agent) CleanFloorEvaluator.self)
    (r : result unit) :
  reachable (w_env w) →
  step BasicVacuumWorld.class agent CleanFloorEvaluator.class t w = (w', r) →
  (r = Ret tt ∧
   ∃ decision,
     BasicVacuumWorld.update decision (w_env w) = (w_env w', Ret tt) ∧
     CleanFloorEvaluator.score (w_eval w')
     = CleanFloorEvaluator.score (w_eval w) + clean_locations (full_state (w_env w'))) ∨
  ((∃ e, r = Raise e) ∧ w_env w' = w_env w ∧ w_eval w' = w_eval w).
Proof.
  intros Hreach. destruct w as [env a v log calls]. simpl in Hreach.
  apply reachable_cases in Hreach as (l & dA & dB & Hl & ->).
  unfold_basic_step. rewrite state_of_observable by done.
  cbn [w_env w_agent w_eval w_log w_calls raised].
  destruct (agent_decide agent _ a) as [a1 [d|y]];
    cbn [w_env w_agent w_eval w_log w_calls raised].
  2:{ intros [= <- <-]. right. eauto. }
  destruct (BasicVacuumWorld.update d (state_of l dA dB)) as [env' [[]|y]] eqn:Hupd;
    cbn [w_env w_agent w_eval w_log w_calls raised BasicVacuumWorld.state].
  2:{ intros [= <- <-]. right. simpl.
      destruct (update_cases d (state_of l dA dB)) as [[Hret _]|[Heq _]].
      - rewrite Hupd in Hret. discriminate.
      - rewrite Hupd in Heq. injection Heq as -> _. eauto. }
  unfold CleanFloorEvaluator.update.
  cbn [w_env w_agent w_eval w_log w_calls raised st_dirt_status].
  intros [= <- <-]. left. split; [done|]. exists d. simpl. split; [done|].
  unfold CleanFloorEvaluator.score. simpl.
  by rewrite count_False_values.
Qed.

(** At most two locations can be clean in a reachable state. *)
Lemma clean_locations_bounds (self : BasicVacuumWorld.self) :
  reachable self → 0 ≤ clean_locations (full_state self) ≤ 2.
Proof.
  intros (l & dA & dB & _ & ->)%reachable_cases.
  pose proof (state_of_points l dA dB) as Hpoints.
  rewrite count_False_values in Hpoints.
  unfold clean_locations, full_state. cbn [st_dirt_status].
  rewrite Hpoints. destruct dA, dB; simpl; lia.
Qed.

Lemma basic_loop_bounds (agent : Agent Observation) (ts : list Z)
    (w : World BasicVacuumWorld.self (agent_self agent) CleanFloorEvaluator.self) :
  reachable (w_env w) →
  let w' := (for_each ts (step BasicVacuumWorld.class agent CleanFloorEvaluator.class) w).1 in
  reachable (w_env w') ∧
  CleanFloorEvaluator.score (w_eval w) ≤ CleanFloorEvaluator.score (w_eval w')
    ≤ CleanFloorEvaluator.score (w_eval w) + 2 * Z.of_nat (length ts).
Proof.
  revert w. induction ts as [|t ts IH]; intros w Hreach.
  - simpl. split; [done|lia].
  - cbn zeta. rewrite for_each_cons.
    destruct (step BasicVacuumWorld.class agent CleanFloorEvaluator.class t w)
      as [w1 r1] eqn:Hstep.
    destruct (basic_step_cases _ _ _ _ _ Hreach Hstep)
      as [(-> & d & Hupd & Hscore)|((e & ->) & Henv & Heval)].
    + assert (Hreach1 : reachable (w_env w1)) by (by eapply reachable_update).
      destruct (IH w1 Hreach1) as [Hr Hs]. split; [exact Hr|].
      pose proof (clean_locations_bounds _ Hreach1).
      rewrite Hscore in Hs. rewrite length_cons, Nat2Z.inj_succ.
      simpl in *. lia.
    + simpl. rewrite Henv, Heval. split; [done|].
      rewrite Nat2Z.inj_succ. lia.
Qed.

(** X6. With the reference environment and evaluator, whatever the agent
    and however the run ends, the score never decreases during
    [run_experiment] and grows by at most 2000, two points per step; the
    environment is left in one of its reachable states. *)
Theorem score_bounds (agent : Agent Observation)
    (w : World BasicVacuumWorld.self (agent_self agent) CleanFloorEvaluator.self) :
  reachable (w_env w) →
  let w' := (run_experiment BasicVacuumWorld.class agent CleanFloorEvaluator.class w).1 in
  reachable (w_env w') ∧
  CleanFloorEvaluator.score (w_eval w) ≤ CleanFloorEvaluator.score (w_eval w')
    ≤ CleanFloorEvaluator.score (w_eval w) + 2000.
Proof.
  intros Hreach. unfold run_experiment.
  pose proof (basic_loop_bounds agent (range 1 1001) w Hreach) as Hloop.
  rewrite range_length in Hloop. exact Hloop.
Qed.

(** One step of the always-suck agent from any of the eight states. *)
Lemma sucky_step_any (t : Z) (location : string) (dirty_A dirty_B : bool)
    (w : World BasicVacuumWorld.self unit CleanFloorEvaluator.self) :
  location = "A" ∨ location = "B" →
  w_env w = state_of location dirty_A dirty_B →
  let dirty_A' := if String.eqb location "A" then false else dirty_A in
  let dirty_B' := if String.eqb location "B" then false else dirty_B in
  step BasicVacuumWorld.class (SuckyAgent.class Observation)
       CleanFloorEvaluator.class t w
  = ({| w_env := state_of location dirty_A' dirty_B';
        w_agent := w_agent w;
        w_eval := {| CleanFloorEvaluator._score :=
                       CleanFloorEvaluator._score (w_eval w)
                       + (point dirty_A' + point dirty_B') |};
        w_log := w_log w ++ [LOG_AGENT_DECISION t (PyStr "SUCK")];
        w_calls := w_calls w ++ cycle t |}, Ret tt).
Proof.
  destruct w as [e a v log calls]. simpl. intros Hl ->.
  unfold_basic_step.
  cbn [agent_decide SuckyAgent.class SuckyAgent.decide].
  rewrite state_of_observable by done.
  cbn [w_env w_agent w_eval w_log w_calls raised].
  rewrite state_of_suck by done.
  cbn [w_env w_agent w_eval w_log w_calls raised BasicVacuumWorld.state].
  unfold CleanFloorEvaluator.update.
  cbn [st_dirt_status w_env w_agent w_eval w_log w_calls raised].
  rewrite state_of_points.
  unfold cycle, returned. by rewrite <- !app_assoc.
Qed.

Lemma sucky_loop_any (ts : list Z) (location : string) (dirty_A dirty_B : bool)
    (w : World BasicVacuumWorld.self unit CleanFloorEvaluator.self) :
  location = "A" ∨ location = "B" →
  w_env w = state_of location dirty_A dirty_B →
  let dirty_A' := if String.eqb location "A" then false else dirty_A in
  let dirty_B' := if String.eqb location "B" then false else dirty_B in
  ts ≠ [] →
  for_each ts (step BasicVacuumWorld.class (SuckyAgent.class Observation)
                    CleanFloorEvaluator.class) w
  = ({| w_env := state_of location dirty_A' dirty_B';
        w_agent := w_agent w;
        w_eval := {| CleanFloorEvaluator._score :=
                       CleanFloorEvaluator._score (w_eval w)
                       + Z.of_nat (length ts) * (point dirty_A' + point dirty_B') |};
        w_log := w_log w ++ ((fun t => LOG_AGENT_DECISION t (PyStr "SUCK")) <$> ts);
        w_calls := w_calls w ++ concat (cycle <$> ts) |}, Ret tt).
Proof.
  intros Hl. revert dirty_A dirty_B w.
  induction ts as [|t ts IH]; intros dA dB w Henv dA' dB' Hne; [done|].
  rewrite for_each_cons, (sucky_step_any t location dA dB) by done.
  fold dA' dB'. destruct ts as [|t' ts].
  - cbn [for_each]. unfold mret, py_ret.
    rewrite !fmap_cons, !fmap_nil, concat_cons, concat_nil, app_nil_r.
    replace (Z.of_nat (length [t])) with 1 by reflexivity.
    by rewrite Z.mul_1_l.
  - rewrite (IH dA' dB') by done.
    cbn [w_env w_agent w_eval w_log w_calls CleanFloorEvaluator._score].
    assert (HA : (if String.eqb location "A" then false else dA') = dA').
    { subst dA'. by destruct (String.eqb location "A"). }
    assert (HB : (if String.eqb location "B" then false else dB') = dB').
    { subst dB'. by destruct (String.eqb location "B"). }
    rewrite HA, HB.
    rewrite !fmap_cons, !concat_cons, <- !app_assoc.
    replace (Z.of_nat (length (t :: t' :: ts)))
      with (1 + Z.of_nat (length (t' :: ts))) by (simpl length; lia).
    replace (CleanFloorEvaluator._score (w_eval w) + (point dA' + point dB')
             + Z.of_nat (length (t' :: ts)) * (point dA' + point dB'))
      with (CleanFloorEvaluator._score (w_eval w)
            + (1 + Z.of_nat (length (t' :: ts))) * (point dA' + point dB')) by lia.
    reflexivity.
Qed.

(** X7. The always-suck agent from any initial state the constructor can
    build: the run completes its 1000 steps, the agent's location is clean
    from the first step on and the other location keeps its dirt status, so
    the final score is 1000 when the other location is dirty and 2000 when
    it is clean. *)
Theorem sucky_agent_any_start (location token_A token_B : string)
    (dirty_A dirty_B : bool) (log : list LogRecord) :
  location ∈ BasicVacuumWorld.locations →
  BasicVacuumWorld._convert_to_dirt_status token_A = Ret dirty_A →
  BasicVacuumWorld._convert_to_dirt_status token_B = Ret dirty_B →
  let start := state_of location dirty_A dirty_B in
  let final := run_experiment BasicVacuumWorld.class (SuckyAgent.class Observation)
                 CleanFloorEvaluator.class
                 (initial_world BasicVacuumWorld.class (SuckyAgent.class Observation)
                    CleanFloorEvaluator.class start tt
                    {| CleanFloorEvaluator._score := 0 |} log) in
  let other_dirty := if String.eqb location "A" then dirty_B else dirty_A in
  BasicVacuumWorld.__init__ [location] [token_A; token_B] = Ret start ∧
  final.2 = Ret tt ∧
  CleanFloorEvaluator.score (w_eval final.1) = 1000 * (1 + point other_dirty) ∧
  BasicVacuumWorld._agent_location (w_env final.1) = location ∧
  BasicVacuumWorld._dirt_status (w_env final.1) !! location = Some false ∧
  (∀ other, other ≠ location →
     BasicVacuumWorld._dirt_status (w_env final.1) !! other
     = BasicVacuumWorld._dirt_status start !! other).
Proof.
  intros Hloc HA HB start final other_dirty.
  split.
  { destruct (init_cases [location] [token_A; token_B])
      as [(l & tA & tB & dA & dB & [= <-] & _ & [= <- <-] & HA' & HB' & Heq)|[arg Heq]].
    - rewrite HA in HA'. rewrite HB in HB'.
      injection HA' as <-. injection HB' as <-. exact Heq.
    - exfalso. revert Heq. unfold BasicVacuumWorld.__init__. simpl.
      apply str_in_spec in Hloc. rewrite Hloc. simpl.
      rewrite HA, HB. discriminate. }
  apply locations_cases in Hloc.
  subst final. unfold run_experiment.
  rewrite (sucky_loop_any (range 1 1001) location dirty_A dirty_B);
    [|done|done|by rewrite (range_cons 1 1001)].
  rewrite range_length. cbn [fst snd w_env w_eval initial_world].
  split; [done|].
  split.
  { unfold CleanFloorEvaluator.score. simpl CleanFloorEvaluator._score.
    subst other_dirty.
    destruct Hloc as [-> | ->]; destruct dirty_A, dirty_B; reflexivity. }
  split; [done|].
  subst start.
  split.
  { destruct Hloc as [-> | ->]; destruct dirty_A, dirty_B; vm_compute; reflexivity. }
  intros other Hne.
  destruct Hloc as [-> | ->]; simpl; unfold dict_of; simpl.
  - destruct (decide (other = "B")) as [->|HneB].
    + by rewrite !lookup_insert_eq.
    + by rewrite !lookup_insert_ne.
  - rewrite !(lookup_insert_ne _ "B") by done.
    destruct (decide (other = "A")) as [->|HneA].
    + by rewrite !lookup_insert_eq.
    + by rewrite !lookup_insert_ne.
Qed.

(** X8. The two agent stubs, whose [decide] returns [None], cannot run:
    from any reachable state of the reference environment and with any
    evaluator, [run_experiment] logs the decision [None] of step 1, the
    environment rejects it, and the run ends there with an agent fault;
    the environment and the evaluator are left untouched. *)
Theorem stub_agents_fault_at_first_step (evaluator : Evaluator EnvState)
    (environment : BasicVacuumWorld.self) (v : eval_self evaluator)
    (log : list LogRecord) :
  reachable environment →
  let stopped :=
    ({| w_env := environment; w_agent := tt; w_eval := v;
        w_log := log ++ [LOG_AGENT_DECISION 1 PyNone];
        w_calls := [returned ObservableState 1; returned Decide 1;
                    Called Update 1 (Some (Exc ValueError [PyNone]))] |},
     Raise (ExperimentError "agent" (Exc ValueError [PyNone]))) in
  run_experiment BasicVacuumWorld.class (RandomAgent.class Observation) evaluator
    (initial_world BasicVacuumWorld.class (RandomAgent.class Observation)
       evaluator environment tt v log) = stopped ∧
  run_experiment BasicVacuumWorld.class (RationalAgent.class Observation) evaluator
    (initial_world BasicVacuumWorld.class (RationalAgent.class Observation)
       evaluator environment tt v log) = stopped.
Proof.
  intros (l & dA & dB & Hl & ->)%reachable_cases stopped.
  unfold run_experiment. rewrite (range_cons 1 1001) by lia.
  rewrite !for_each_cons.
  unfold step, try_except, on_environment, on_agent, on_evaluator,
    logger_info, record, mbind, py_bind, initial_world.
  cbn [env_observable_state env_update env_state agent_decide
       BasicVacuumWorld.class RandomAgent.class RandomAgent.decide
       RationalAgent.class RationalAgent.decide
       w_env w_agent w_eval w_log w_calls raised].
  rewrite state_of_observable by done.
  by cbn [w_env w_agent w_eval w_log w_calls raised].
Qed.

(** ** The decision log *)

Lemma decision_steps_snoc (log : list LogRecord) (t : Z) (decision : pyval) :
  decision_steps (log ++ [LOG_AGENT_DECISION t decision]) = decision_steps log ++ [t].
Proof. unfold decision_steps. by rewrite omap_app. Qed.

Lemma take_range (n : nat) (lo hi : Z) :
  Z.of_nat n ≤ hi - lo → take n (range lo hi) = range lo (lo + Z.of_nat n).
Proof.
  intros Hn. unfold range.
  replace (hi - lo) with (Z.of_nat n + (hi - lo - Z.of_nat n)) by lia.
  rewrite seqZ_app by lia.
  rewrite take_app_length' by (rewrite length_seqZ; lia).
  f_equal. lia.
Qed.

Section DecisionLog.
Context {Obs St : Type}.
Variable environment : Environment Obs St.
Variable agent : Agent Obs.
Variable evaluator : Evaluator St.

(** A step logs its decision exactly when [decide] returned, whatever
    happens afterwards. *)
Lemma step_decisions (t : Z)
    (w w' : World (env_self environment) (agent_self agent) (eval_self evaluator))
    (r : result unit) :
  step environment agent evaluator t w = (w', r) →
  ∃ calls,
    w_calls w' = w_calls w ++ calls ∧
    ((completed Decide calls = 1%nat ∧
      decision_steps (w_log w') = decision_steps (w_log w) ++ [t]) ∨
     (completed Decide calls = 0%nat ∧ r ≠ Ret tt ∧
      decision_steps (w_log w') = decision_steps (w_log w))).
Proof.
  unfold_step.
  destruct (env_observable_state environment (w_env w)) as [e1 [o|x]]; simpl.
  2:{ intros [= <- <-]. eexists. split; [done|]. right. by simpl. }
  destruct (agent_decide agent o (w_agent w)) as [a1 [d|x]]; simpl.
  2:{ intros [= <- <-]. eexists. split; [by rewrite <- app_assoc|]. right.
      by simpl. }
  destruct (env_update environment d e1) as [e2 [[]|x]]; simpl.
  2:{ intros [= <- <-]. eexists. split; [by rewrite <- !app_assoc|]. left.
      split; [done|]. apply decision_steps_snoc. }
  destruct (env_state environment e2) as [e3 [s|x]]; simpl.
  2:{ intros [= <- <-]. eexists. split; [by rewrite <- !app_assoc|]. left.
      split; [done|]. apply decision_steps_snoc. }
  destruct (eval_update evaluator s (w_eval w)) as [v1 [[]|x]]; simpl;
    intros [= <- <-]; (eexists; split; [by rewrite <- !app_assoc|]; left;
      split; [done|]; apply decision_steps_snoc).
Qed.

Lemma loop_decisions (ts : list Z)
    (w w' : World (env_self environment) (agent_self agent) (eval_self evaluator))
    (r : result unit) :
  for_each ts (step environment agent evaluator) w = (w', r) →
  ∃ calls,
    w_calls w' = w_calls w ++ calls ∧
    (completed Decide calls ≤ length ts)%nat ∧
    decision_steps (w_log w')
    = decision_steps (w_log w) ++ take (completed Decide calls) ts.
Proof.
  revert w. induction ts as [|t ts IH]; intros w.
  - intros [= <- <-]. exists []. by rewrite !app_nil_r.
  - rewrite for_each_cons.
    destruct (step environment agent evaluator t w) as [w1 [[]|e]] eqn:Hstep;
      apply step_decisions in Hstep
        as (calls1 & Hc1 & [[Hn1 Hd1]|(Hn1 & Hr1 & Hd1)]); try done.
    + intros Hloop. apply IH in Hloop as (calls2 & Hc2 & Hn2 & Hd2).
      exists (calls1 ++ calls2). rewrite Hc2, Hc1, <- app_assoc. split; [done|].
      rewrite completed_app, Hn1. simpl. split; [lia|].
      by rewrite Hd2, Hd1, <- app_assoc.
    + intros [= <- <-]. exists calls1. rewrite Hn1. simpl.
      split; [done|]. split; [lia|]. by rewrite Hd1.
    + intros [= <- <-]. exists calls1. rewrite Hn1. simpl.
      split; [done|]. split; [lia|]. by rewrite Hd1, app_nil_r.
Qed.

(** X9. The decision log is an audit trail of the calls of [decide]: after
    [run_experiment], however it ends, the log has gained exactly the
    decisions the agent returned, each with the index of its step and the
    value [decide] returned on the observable state of that step, in order
    and up to the first call that raised; so there is one decision record
    for each call of [decide] that returned, with the step indices
    1, 2, ..., whether or not the environment then accepted the decision. *)
Theorem decision_log_audit_trail
    (w : World (env_self environment) (agent_self agent) (eval_self evaluator)) :
  w_calls w = [] →
  decision_steps (w_log w) = [] →
  let w' := (run_experiment environment agent evaluator w).1 in
  w_log w'
  = w_log w ++ decisions_of environment agent evaluator (range 1 1001)
                 (w_env w) (w_agent w) (w_eval w) ∧
  decision_steps (w_log w')
  = range 1 (1 + Z.of_nat (completed Decide (w_calls w'))) ∧
  (completed Decide (w_calls w') ≤ 1000)%nat.
Proof.
  intros Hfresh Hlog w'. subst w'.
  split; [apply loop_decisions_of|].
  destruct (run_experiment environment agent evaluator w) as [w' r] eqn:Hrun.
  unfold run_experiment in Hrun.
  apply loop_decisions in Hrun as (calls & Hc & Hn & Hd).
  rewrite Hfresh in Hc. rewrite Hlog in Hd. simpl in Hc, Hd. subst calls.
  rewrite range_length in Hn. simpl.
  split; [|lia]. rewrite Hd. apply take_range. lia.
Qed.

End DecisionLog.

(** ** The command-line arguments of the environment *)

Lemma extract_loop_cons (arg : string) (rest : list string)
    (environment_args : gmap string (list string)) :
  extract_loop (arg :: rest) environment_args
  = if negb (startswith arg "--env-") then Raise (Exc ValueError [PyStr arg])
    else extract_loop (drop (next_env_index rest) rest)
           (<[param_name arg := take (next_env_index rest) rest]> environment_args).
Proof.
  rewrite extract_loop_equation_2.
  destruct (negb (startswith arg "--env-")); [done|].
  by destruct rest.
Qed.

(** The inner loop stops at the first flag: what it skips has no flag and
    what is left is empty or begins with a flag. *)
Lemma next_env_index_split (rest : list string) :
  no_flag (take (next_env_index rest) rest) ∧
  flag_first (drop (next_env_index rest) rest).
Proof.
  induction rest as [|element rest [IHt IHd]]; [by split; [constructor|]|].
  simpl. destruct (startswith element "--env-") eqn:Hflag; simpl.
  - split; [constructor|done].
  - split; [by constructor|done].
Qed.

Lemma next_env_index_app (values rest : list string) :
  no_flag values → flag_first rest →
  next_env_index (values ++ rest) = length values.
Proof.
  intros Hvalues Hrest. induction Hvalues as [|value values Hvalue _ IH]; simpl.
  - destruct rest as [|arg rest]; [done|]. simpl in *. by rewrite Hrest.
  - by rewrite Hvalue, IH.
Qed.

(** A flag, its values and the rest: one turn of the outer loop. *)
Lemma extract_loop_group (flag : string) (values rest : list string)
    (environment_args : gmap string (list string)) :
  startswith flag "--env-" = true → no_flag values → flag_first rest →
  extract_loop (flag :: values ++ rest) environment_args
  = extract_loop rest (<[param_name flag := values]> environment_args).
Proof.
  intros Hflag Hvalues Hrest.
  rewrite extract_loop_cons, Hflag. simpl negb. cbv iota.
  rewrite next_env_index_app by done.
  by rewrite take_app_length, drop_app_length.
Qed.

(** The dictionary built so far only receives entries: the result is what
    the loop builds from the empty dictionary, laid over it. *)
Lemma extract_loop_accumulates (args : list string)
    (environment_args : gmap string (list string)) :
  extract_loop args environment_args
  = match extract_loop args ∅ with
    | Ret built => Ret (built ∪ environment_args)
    | Raise e => Raise e
    end.
Proof.
  revert environment_args.
  induction args as [args IH] using (induction_ltof1 _ (@length string)).
  unfold ltof in IH. intros d.
  destruct args as [|arg rest].
  - rewrite !extract_loop_equation_1. by rewrite (left_id_L ∅ (∪)).
  - rewrite !extract_loop_cons.
    destruct (negb (startswith arg "--env-")); [done|].
    assert (Hlt : (length (drop (next_env_index rest) rest) < length (arg :: rest))%nat).
    { rewrite length_drop. simpl. lia. }
    rewrite (IH _ Hlt (<[_ := _]> d)), (IH _ Hlt (<[_ := _]> ∅)).
    destruct (extract_loop (drop (next_env_index rest) rest) ∅) as [built|e]; [|done].
    f_equal. rewrite !insert_union_singleton_l.
    by rewrite (right_id_L ∅ (∪)), (assoc_L (∪)).
Qed.

(** The loop returns on every list that is empty or begins with a flag. *)
Lemma extract_loop_returns (args : list string)
    (environment_args : gmap string (list string)) :
  flag_first args → ∃ built, extract_loop args environment_args = Ret built.
Proof.
  revert environment_args.
  induction args as [args IH] using (induction_ltof1 _ (@length string)).
  unfold ltof in IH. intros d Hfirst.
  destruct args as [|arg rest].
  - rewrite extract_loop_equation_1. eauto.
  - simpl in Hfirst. rewrite extract_loop_cons, Hfirst. simpl.
    apply IH; [rewrite length_drop; simpl; lia|].
    apply next_env_index_split.
Qed.

(** X10. [_extract_environment_args] can only reject the first token: it
    returns the empty dictionary on no argument, raises [ValueError] with
    the first token when that token does not start with ['--env-'], and
    returns a dictionary in every other case, whatever follows that
    token. *)
Theorem extract_rejects_first_token_only (args : list string) :
  match args with
  | [] => _extract_environment_args args = Ret ∅
  | arg :: _ =>
      if startswith arg "--env-"
      then ∃ environment_args, _extract_environment_args args = Ret environment_args
      else _extract_environment_args args = Raise (Exc ValueError [PyStr arg])
  end.
Proof.
  unfold _extract_environment_args. destruct args as [|arg rest].
  - by rewrite extract_loop_equation_1.
  - destruct (startswith arg "--env-") eqn:Hflag.
    + by apply extract_loop_returns.
    + by rewrite extract_loop_cons, Hflag.
Qed.

(** X11. A flag followed by values that are not flags binds the parameter
    named by the flag (the text after ['--env-'], dashes turned into
    underscores) to the list of these values, possibly empty; the
    arguments that follow are read in the same way and their bindings
    replace an earlier binding of the same name. *)
Theorem extract_group (flag : string) (values rest : list string)
    (following : gmap string (list string)) :
  startswith flag "--env-" = true →
  no_flag values →
  _extract_environment_args rest = Ret following →
  _extract_environment_args (flag :: values ++ rest)
  = Ret (following ∪ {[param_name flag := values]}).
Proof.
  unfold _extract_environment_args. intros Hflag Hvalues Hrest.
  assert (Hfirst : flag_first rest).
  { destruct rest as [|arg rest']; [done|]. simpl.
    destruct (startswith arg "--env-") eqn:Harg; [done|].
    by rewrite extract_loop_cons, Harg in Hrest. }
  rewrite extract_loop_group by done.
  rewrite extract_loop_accumulates, Hrest.
  by rewrite insert_empty.
Qed.

(** X12. The command line of the reference environment: the arguments
    [--env-agent-location] and [--env-dirt-status], each followed by its
    values, in either order, give the keyword arguments [agent_location]
    and [dirt_status] of the constructor, bound to these values, so that
    the environment is constructed from them. *)
Theorem extract_constructor_arguments (agent_location dirt_status : list string) :
  no_flag agent_location →
  no_flag dirt_status →
  _extract_environment_args
    (("--env-agent-location" :: agent_location)
       ++ ("--env-dirt-status" :: dirt_status))
  = Ret (environment_args agent_location dirt_status) ∧
  _extract_environment_args
    (("--env-dirt-status" :: dirt_status)
       ++ ("--env-agent-location" :: agent_location))
  = Ret (environment_args agent_location dirt_status) ∧
  BasicVacuumWorld.new (environment_args agent_location dirt_status)
  = BasicVacuumWorld.__init__ agent_location dirt_status.
Proof.
  intros Hal Hds. unfold _extract_environment_args.
  split; [|split; [|apply new_environment_args]].
  - rewrite <- app_comm_cons, extract_loop_group by done.
    rewrite <- (app_nil_r dirt_status) at 1.
    rewrite extract_loop_group by done.
    rewrite extract_loop_equation_1. unfold environment_args.
    by rewrite insert_insert_ne.
  - rewrite <- app_comm_cons, extract_loop_group by done.
    rewrite <- (app_nil_r agent_location) at 1.
    rewrite extract_loop_group by done.
    by rewrite extract_loop_equation_1.
Qed.

Lemma replace_removes (old new : ascii) (s : string) :
  old ≠ new → old ∉ chars (replace old new s).
Proof.
  intros Hne. induction s as [|c s IH]; simpl; [apply not_elem_of_nil|].
  apply not_elem_of_cons. split; [|done].
  destruct (Ascii.eqb_spec c old); congruence.
Qed.

Lemma extract_loop_invariant (args : list string)
    (environment_args built : gmap string (list string)) :
  (∀ name values, environment_args !! name = Some values →
                  ("-"%char ∉ chars name) ∧ no_flag values) →
  extract_loop args environment_args = Ret built →
  ∀ name values, built !! name = Some values →
                 ("-"%char ∉ chars name) ∧ no_flag values.
Proof.
  revert environment_args.
  induction args as [args IH] using (induction_ltof1 _ (@length string)).
  unfold ltof in IH. intros d Hd.
  destruct args as [|arg rest].
  - rewrite extract_loop_equation_1. by intros [= <-].
  - rewrite extract_loop_cons.
    destruct (negb (startswith arg "--env-")); [done|].
    apply IH; [rewrite length_drop; simpl; lia|].
    intros name values Hlookup.
    apply lookup_insert_Some in Hlookup as [[<- <-]|[_ Hlookup]]; [|by eapply Hd].
    split; [by apply replace_removes|apply next_env_index_split].
Qed.

(** X13. What [_extract_environment_args] returns: no parameter name has a
    dash, and no value is a token starting with ['--env-']. *)
Theorem extract_result_invariant (args : list string)
    (environment_args : gmap string (list string)) (name : string)
    (values : list string) :
  _extract_environment_args args = Ret environment_args →
  environment_args !! name = Some values →
  ("-"%char ∉ chars name) ∧ no_flag values.
Proof.
  unfold _extract_environment_args. intros Hextract.
  by apply (extract_loop_invariant args ∅ environment_args).
Qed.

(** ** The program on a command line *)

Lemma init_state_of (location token_A token_B : string) (dirty_A dirty_B : bool) :
  location ∈ BasicVacuumWorld.locations →
  BasicVacuumWorld._convert_to_dirt_status token_A = Ret dirty_A →
  BasicVacuumWorld._convert_to_dirt_status token_B = Ret dirty_B →
  BasicVacuumWorld.__init__ [location] [token_A; token_B]
  = Ret (state_of location dirty_A dirty_B).
Proof.
  intros Hloc HA HB. unfold BasicVacuumWorld.__init__. simpl.
  apply str_in_spec in Hloc. rewrite Hloc. simpl.
  by rewrite HA, HB.
Qed.

(** A recognized token is not a flag. *)
Lemma recognized_token_no_flag (token : string) (dirty : bool) :
  BasicVacuumWorld._convert_to_dirt_status token = Ret dirty →
  startswith token "--env-" = false.
Proof.
  intros Hconvert.
  destruct (startswith token "--env-") eqn:Hflag; [exfalso|done].
  destruct token as [|c token]; [discriminate|].
  unfold startswith in Hflag. apply String.prefix_correct in Hflag.
  simpl in Hflag. injection Hflag as -> _.
  revert Hconvert. unfold BasicVacuumWorld._convert_to_dirt_status.
  change (lower (String "-" token)) with (String "-" (lower token)).
  replace (str_in (String "-" (lower token)) DIRTY_VALUES) with false by reflexivity.
  replace (str_in (String "-" (lower token)) CLEAN_VALUES) with false by reflexivity.
  discriminate.
Qed.

(** X14. From the command line to the score.  With the arguments
    [--env-agent-location L --env-dirt-status tA tB], [L] one of the two
    locations and the two tokens recognized, the always-suck agent and the
    reference evaluator, the extracted keyword arguments make [main] log the
    greeting, the 1000 decisions ['SUCK'], the completion and the score:
    1000 when the location the agent is not at is dirty, 2000 when it is
    clean. *)
Theorem command_line_to_score (location token_A token_B : string)
    (dirty_A dirty_B : bool) (log : list LogRecord) :
  location ∈ BasicVacuumWorld.locations →
  BasicVacuumWorld._convert_to_dirt_status token_A = Ret dirty_A →
  BasicVacuumWorld._convert_to_dirt_status token_B = Ret dirty_B →
  let other_dirty := if String.eqb location "A" then dirty_B else dirty_A in
  ∃ environment_args,
    _extract_environment_args
      ["--env-agent-location"; location; "--env-dirt-status"; token_A; token_B]
    = Ret environment_args ∧
    main BasicVacuumWorld.class (SuckyAgent.class Observation)
         CleanFloorEvaluator.class environment_args log
    = (log ++ [LOG_HELLO]
         ++ ((fun t => LOG_AGENT_DECISION t (PyStr "SUCK")) <$> range 1 1001)
         ++ [LOG_COMPLETE; LOG_SCORE (1000 * (1 + point other_dirty))], Ret None).
Proof.
  intros Hloc HA HB other_dirty.
  exists (environment_args [location] [token_A; token_B]).
  assert (Hl : location = "A" ∨ location = "B") by by apply locations_cases.
  split.
  { unfold _extract_environment_args.
    change ["--env-agent-location"; location; "--env-dirt-status"; token_A; token_B]
      with ("--env-agent-location" :: [location]
              ++ "--env-dirt-status" :: [token_A; token_B] ++ []).
    assert (Hlocation : no_flag [location]).
    { repeat constructor. by destruct Hl as [-> | ->]. }
    assert (Htokens : no_flag [token_A; token_B]).
    { repeat constructor; by eapply recognized_token_no_flag. }
    rewrite (extract_loop_group "--env-agent-location" [location]) by done.
    rewrite (extract_loop_group "--env-dirt-status" [token_A; token_B]) by done.
    rewrite extract_loop_equation_1. unfold environment_args.
    by rewrite insert_insert_ne. }
  unfold main. simpl eval_new. simpl agent_new. simpl env_new.
  unfold CleanFloorEvaluator.__init__.
  rewrite new_environment_args, (init_state_of _ _ _ dirty_A dirty_B) by done.
  unfold run_experiment.
  rewrite (sucky_loop_any (range 1 1001) location dirty_A dirty_B);
    [|done|done|by rewrite (range_cons 1 1001)].
  rewrite range_length. unfold report_results.
  cbn [w_env w_eval w_log initial_world eval_score CleanFloorEvaluator.class
       CleanFloorEvaluator.score CleanFloorEvaluator._score].
  rewrite <- !app_assoc. do 2 f_equal. f_equal. f_equal. f_equal.
  subst other_dirty.
  destruct Hl as [-> | ->]; destruct dirty_A, dirty_B; reflexivity.
Qed.

(** X15. A keyword argument that is neither [agent_location] nor
    [dirt_status] is not reported as a bad environment parameter: the
    constructor call raises [TypeError], which [except ValueError] does not
    catch, and the exception leaves [main] after the greeting, with no
    step run and no score logged. *)
Theorem unknown_parameter_not_reported
    (agent : Agent Observation) (evaluator : Evaluator EnvState)
    (a : agent_self agent) (v : eval_self evaluator)
    (environment_args : gmap string (list string)) (name : string)
    (values : list string) (log : list LogRecord) :
  agent_new agent = Ret a →
  eval_new evaluator = Ret v →
  environment_args !! name = Some values →
  name ≠ "agent_location" →
  name ≠ "dirt_status" →
  ∃ args,
    isinstance_ValueError (Exc TypeError args) = false ∧
    main BasicVacuumWorld.class agent evaluator environment_args log
    = (log ++ [LOG_HELLO], Raise (Exc TypeError args)).
Proof.
  intros Ha Hv Hname Hne1 Hne2. eexists. split; [reflexivity|].
  unfold main. rewrite Hv, Ha. simpl env_new. unfold BasicVacuumWorld.new.
  rewrite bool_decide_eq_false_2; [reflexivity|].
  intros Hsub. assert (Hin : name ∈ dom environment_args) by by apply elem_of_dom.
  apply Hsub in Hin. set_solver.
Qed.

(** ** Loading the classes *)

Lemma split_no_sep (sep : ascii) (s : string) :
  sep ∉ chars s → split sep s = [s].
Proof.
  induction s as [|c s IH]; [done|]. simpl.
  intros [Hc Hs]%not_elem_of_cons.
  destruct (Ascii.eqb_spec c sep) as [->|_]; [done|].
  by rewrite IH.
Qed.

Lemma split_nonempty (sep : ascii) (s : string) : split sep s ≠ [].
Proof.
  destruct s as [|c s]; [done|]. simpl.
  destruct (Ascii.eqb c sep); [done|]. by destruct (split sep s).
Qed.

(** Splitting at a separator: the segments before it, then those after. *)
Lemma split_sep (sep : ascii) (before after : string) :
  split sep (before +:+ String sep after) = split sep before ++ split sep after.
Proof.
  induction before as [|c before IH]; simpl.
  - by rewrite Ascii.eqb_refl.
  - rewrite IH. destruct (Ascii.eqb c sep); [done|].
    pose proof (split_nonempty sep before).
    by destruct (split sep before).
Qed.

(** Joining what was split gives the string back. *)
Lemma join_split (sep : ascii) (s : string) :
  join (String sep EmptyString) (split sep s) = s.
Proof.
  induction s as [|c s IH]; [done|].
  simpl split. destruct (Ascii.eqb_spec c sep) as [->|Hne].
  - pose proof (split_nonempty sep s).
    destruct (split sep s) as [|segment segments] eqn:Hsplit; [done|].
    change (join (String sep "") ("" :: segment :: segments))
      with (String sep (join (String sep "") (segment :: segments))).
    by rewrite IH.
  - pose proof (split_nonempty sep s).
    destruct (split sep s) as [|segment segments] eqn:Hsplit; [done|].
    rewrite <- IH. by destruct segments.
Qed.

(** X16. How [_load_class] reads an import path: the class name is what
    follows the last dot and the module name what precedes it.  A path
    without a dot, or with nothing before its last dot, is looked up in the
    globals of the program, and no module is imported; otherwise the module
    is imported and the class is looked up in it.  A class that is not
    found makes [_try_load_class] log one record and exit with status 1. *)
Theorem load_class_path (C : Type)
    (import_module : string → loaded (gmap string C))
    (globals : gmap string C)
    (module_name class_name role : string) (log : list LoaderRecord) :
  "."%char ∉ chars class_name →
  let lookup_in := fun (attributes : gmap string C) =>
    match attributes !! class_name with
    | Some class => Loaded class
    | None => LoadRaise _ClassNotFoundError
    end in
  _load_class C import_module globals class_name = lookup_in globals ∧
  _load_class C import_module globals (module_name +:+ "." +:+ class_name)
  = (if String.eqb module_name "" then lookup_in globals
     else match import_module module_name with
          | Loaded module => lookup_in module
          | LoadRaise e => LoadRaise e
          end) ∧
  _try_load_class C import_module globals class_name role log
  = match globals !! class_name with
    | Some class => (log, Ret class)
    | None => (log ++ [LOG_CLASS_NOT_FOUND role class_name],
               Raise (Exc SystemExit [PyInt 1]))
    end.
Proof.
  intros Hdot lookup_in.
  assert (Hbare : _load_class C import_module globals class_name = lookup_in globals).
  { unfold _load_class. by rewrite split_no_sep. }
  split; [exact Hbare|]. split.
  - unfold _load_class.
    change (module_name +:+ "." +:+ class_name)
      with (module_name +:+ String "." class_name).
    rewrite split_sep, (split_no_sep _ class_name) by done.
    rewrite last_snoc, removelast_last, join_split.
    by destruct (String.eqb module_name "").
  - unfold _try_load_class. rewrite Hbare. unfold lookup_in.
    by destruct (globals !! class_name).
Qed.

(** ** The best score *)

(** An action brings the environment at most one action closer to having
    both locations clean. *)
Lemma steps_to_clean_update (self self' : BasicVacuumWorld.self)
    (action : pyval) (r : result unit) :
  reachable self →
  BasicVacuumWorld.update action self = (self', r) →
  (steps_to_clean self ≤ steps_to_clean self' + 1)%nat.
Proof.
  intros (l & dA & dB & Hl & ->)%reachable_cases.
  destruct (BasicVacuumWorld.eq_str action "SUCK") eqn:Hsuck.
  { apply eq_str_true in Hsuck as ->. rewrite state_of_suck by done.
    intros [= <- _].
    destruct Hl as [-> | ->]; destruct dA, dB; vm_compute; lia. }
  unfold BasicVacuumWorld.update. rewrite Hsuck.
  destruct (BasicVacuumWorld.eq_str action "RIGHT").
  { intros [= <- _].
    destruct Hl as [-> | ->]; destruct dA, dB; vm_compute; lia. }
  destruct (BasicVacuumWorld.eq_str action "LEFT").
  { intros [= <- _].
    destruct Hl as [-> | ->]; destruct dA, dB; vm_compute; lia. }
  intros [= <- _]. lia.
Qed.

(** The clean locations of a state, from the actions it still needs. *)
Lemma clean_locations_most_points (self : BasicVacuumWorld.self) :
  reachable self →
  clean_locations (full_state self) = most_points (steps_to_clean self).
Proof.
  intros (l & dA & dB & Hl & ->)%reachable_cases.
  pose proof (state_of_points l dA dB) as Hpoints.
  rewrite count_False_values in Hpoints.
  unfold clean_locations, full_state. cbn [st_dirt_status]. rewrite Hpoints.
  destruct Hl as [-> | ->]; destruct dA, dB; vm_compute; reflexivity.
Qed.

Lemma most_points_antitone (n m : nat) :
  (n ≤ m)%nat → most_points m ≤ most_points n.
Proof.
  intros Hle.
  destruct n as [|[|[|n]]], m as [|[|[|m]]]; simpl; lia.
Qed.

Lemma most_score_antitone (k n m : nat) :
  (n ≤ m)%nat → most_score m k ≤ most_score n k.
Proof.
  revert n m. induction k as [|k IH]; intros n m Hle; simpl; [lia|].
  assert (Hpred : (Nat.pred n ≤ Nat.pred m)%nat) by lia.
  pose proof (most_points_antitone _ _ Hpred). pose proof (IH _ _ Hpred). lia.
Qed.

Lemma most_score_nonneg (k n : nat) : 0 ≤ most_score n k.
Proof.
  revert n. induction k as [|k IH]; intros n; simpl; [lia|].
  pose proof (IH (Nat.pred n)).
  assert (0 ≤ most_points (Nat.pred n)); [|lia].
  by destruct (Nat.pred n) as [|[|[|?]]].
Qed.

Lemma most_score_run (n : nat) :
  (n ≤ 3)%nat →
  most_score n (Z.to_nat (1001 - 1)) = 2000 - Z.of_nat (Nat.pred n).
Proof.
  intros Hn. destruct n as [|[|[|[|n]]]]; [..|lia]; vm_compute; reflexivity.
Qed.

Lemma basic_loop_most_score (agent : Agent Observation) (ts : list Z)
    (w : World BasicVacuumWorld.self (agent_self agent) CleanFloorEvaluator.self) :
  reachable (w_env w) →
  CleanFloorEvaluator.score
    (w_eval (for_each ts (step BasicVacuumWorld.class agent
                            CleanFloorEvaluator.class) w).1)
  ≤ CleanFloorEvaluator.score (w_eval w)
    + most_score (steps_to_clean (w_env w)) (length ts).
Proof.
  revert w. induction ts as [|t ts IH]; intros w Hreach.
  - simpl. lia.
  - rewrite for_each_cons.
    destruct (step BasicVacuumWorld.class agent CleanFloorEvaluator.class t w)
      as [w1 r1] eqn:Hstep.
    destruct (basic_step_cases _ _ _ _ _ Hreach Hstep)
      as [(-> & d & Hupd & Hscore)|((e & ->) & Henv & Heval)].
    + assert (Hreach1 : reachable (w_env w1)) by (by eapply reachable_update).
      pose proof (IH w1 Hreach1) as Hrest.
      pose proof (steps_to_clean_update _ _ _ _ Hreach Hupd) as Hneed.
      assert (Hpred := Hneed).
      rewrite Nat.add_1_r in Hpred. apply Nat.le_pred_le_succ in Hpred.
      pose proof (most_points_antitone _ _ Hpred) as Hpoints.
      pose proof (most_score_antitone (length ts) _ _ Hpred) as Hbest.
      rewrite clean_locations_most_points in Hscore by done.
      rewrite Hscore in Hrest. simpl most_score. simpl in *. lia.
    + cbn [fst env_self eval_self BasicVacuumWorld.class CleanFloorEvaluator.class].
      rewrite Heval.
      pose proof (most_score_nonneg (length (t :: ts)) (steps_to_clean (w_env w))).
      lia.
Qed.

(** X17. No agent can beat the plan suck, move, suck.  With the reference
    environment and evaluator, from a reachable state from which [n]
    actions are needed to have both locations clean, a run of
    [run_experiment] adds at most 2000 points to the score when [n <= 1],
    and at most [2000 - (n - 1)] otherwise: the first [n] steps cannot all
    see two clean locations.  From the default initial state, which needs 3
    actions, no agent scores more than 1998, and the agent that plays
    ['SUCK'], ['RIGHT'], ['SUCK'] and then keeps sucking scores 1998. *)
Theorem best_score (agent : Agent Observation)
    (w : World BasicVacuumWorld.self (agent_self agent) CleanFloorEvaluator.self) :
  reachable (w_env w) →
  let w' := (run_experiment BasicVacuumWorld.class agent CleanFloorEvaluator.class w).1 in
  let plan := [Ret (PyStr "SUCK"); Ret (PyStr "RIGHT"); Ret (PyStr "SUCK")] in
  CleanFloorEvaluator.score (w_eval w')
    ≤ CleanFloorEvaluator.score (w_eval w)
      + 2000 - Z.of_nat (Nat.pred (steps_to_clean (w_env w))) ∧
  (w_env w = dirty_world →
   CleanFloorEvaluator.score (w_eval w') ≤ CleanFloorEvaluator.score (w_eval w) + 1998) ∧
  CleanFloorEvaluator.score
    (w_eval (run_experiment BasicVacuumWorld.class
               (ScriptedAgent.class Observation plan) CleanFloorEvaluator.class
               (scripted_world plan)).1) = 1998.
Proof.
  intros Hreach w' plan.
  assert (Hbound : CleanFloorEvaluator.score (w_eval w')
            ≤ CleanFloorEvaluator.score (w_eval w)
              + 2000 - Z.of_nat (Nat.pred (steps_to_clean (w_env w)))).
  { subst w'. unfold run_experiment.
    pose proof (basic_loop_most_score agent (range 1 1001) w Hreach) as Hloop.
    rewrite range_length in Hloop.
    assert (Hneed : (steps_to_clean (w_env w) ≤ 3)%nat).
    { apply reachable_cases in Hreach as (l & dA & dB & Hl & ->).
      destruct Hl as [-> | ->]; destruct dA, dB; vm_compute; lia. }
    rewrite (most_score_run _ Hneed), Z.add_sub_assoc in Hloop. exact Hloop. }
  split; [exact Hbound|]. split.
  - intros Hdirty. rewrite Hdirty in Hbound.
    replace (steps_to_clean dirty_world) with 3%nat in Hbound by (vm_compute; reflexivity).
    change (Z.of_nat (Nat.pred 3)) with 2 in Hbound. lia.
  - vm_compute. reflexivity.
Qed.

(** ** The further properties on concrete inputs *)

(** Moving right from the state where [A] is clean leaves [A] clean. *)
Lemma clean_squares_stay_clean_witness :
  BasicVacuumWorld._dirt_status
    (BasicVacuumWorld.update (PyStr "RIGHT") cleaned_world).1 !! "A" = Some false.
Proof.
  destruct (clean_squares_stay_clean cleaned_world (PyStr "RIGHT") "A") as [Hclean _].
  - vm_compute. reflexivity.
  - exact Hclean.
Defined.

(** The agent at [B], [A] dirty and [B] clean. *)
Lemma init_builds_state_witness :
  ∃ self,
    BasicVacuumWorld.__init__ ["B"] ["Yes"; "NO"] = Ret self ∧
    BasicVacuumWorld._agent_location self = "B" ∧
    BasicVacuumWorld._dirt_status self !! "A" = Some true ∧
    BasicVacuumWorld._dirt_status self !! "B" = Some false ∧
    dom (BasicVacuumWorld._dirt_status self) = ({["A"; "B"]} : gset string).
Proof.
  apply (init_builds_state "B" "Yes" "NO" true false).
  - apply (bool_decide_unpack _). vm_compute. exact I.
  - vm_compute. reflexivity.
  - vm_compute. reflexivity.
Defined.

(** An agent that sucks and then answers ['UP']: the score stays within
    the bounds. *)
Lemma score_bounds_witness :
  let script := [Ret (PyStr "SUCK"); Ret (PyStr "UP")] in
  0 ≤ CleanFloorEvaluator.score
        (w_eval (run_experiment BasicVacuumWorld.class
                   (ScriptedAgent.class Observation script)
                   CleanFloorEvaluator.class (scripted_world script)).1)
    ≤ 0 + 2000.
Proof.
  intros script.
  destruct (score_bounds (ScriptedAgent.class Observation script)
              (scripted_world script)) as [_ Hbounds].
  - apply (reachable_init ["A"] ["t"; "t"]). vm_compute. reflexivity.
  - exact Hbounds.
Defined.

(** The agent at [B], [A] clean and [B] dirty: the final score is 2000. *)
Lemma sucky_agent_any_start_witness :
  CleanFloorEvaluator.score
    (w_eval (run_experiment BasicVacuumWorld.class (SuckyAgent.class Observation)
               CleanFloorEvaluator.class
               (initial_world BasicVacuumWorld.class (SuckyAgent.class Observation)
                  CleanFloorEvaluator.class (state_of "B" false true) tt
                  {| CleanFloorEvaluator._score := 0 |} [])).1)
  = 1000 * (1 + point false).
Proof.
  destruct (sucky_agent_any_start "B" "f" "t" false true []) as (_ & _ & Hscore & _).
  - apply (bool_decide_unpack _). vm_compute. exact I.
  - vm_compute. reflexivity.
  - vm_compute. reflexivity.
  - exact Hscore.
Defined.

(** The program run with [--agent RationalAgent]. *)
Lemma stub_agents_fault_at_first_step_witness :
  (run_experiment BasicVacuumWorld.class (RationalAgent.class Observation)
     CleanFloorEvaluator.class
     (initial_world BasicVacuumWorld.class (RationalAgent.class Observation)
        CleanFloorEvaluator.class dirty_world tt
        {| CleanFloorEvaluator._score := 0 |} [])).2
  = Raise (ExperimentError "agent" (Exc ValueError [PyNone])).
Proof.
  destruct (stub_agents_fault_at_first_step CleanFloorEvaluator.class dirty_world
              {| CleanFloorEvaluator._score := 0 |} []) as [_ Hrational].
  - apply (reachable_init ["A"] ["t"; "t"]). vm_compute. reflexivity.
  - exact (f_equal snd Hrational).
Defined.

(** An agent that sucks and then answers ['UP']: both decisions are
    logged as the agent returned them, the rejected one included. *)
Lemma decision_log_audit_trail_witness :
  let script := [Ret (PyStr "SUCK"); Ret (PyStr "UP")] in
  w_log (run_experiment BasicVacuumWorld.class
           (ScriptedAgent.class Observation script)
           CleanFloorEvaluator.class (scripted_world script)).1
  = [LOG_AGENT_DECISION 1 (PyStr "SUCK"); LOG_AGENT_DECISION 2 (PyStr "UP")] ∧
  decision_steps
    (w_log (run_experiment BasicVacuumWorld.class
              (ScriptedAgent.class Observation script)
              CleanFloorEvaluator.class (scripted_world script)).1)
  = range 1
      (1 + Z.of_nat
             (completed Decide
                (w_calls (run_experiment BasicVacuumWorld.class
                            (ScriptedAgent.class Observation script)
                            CleanFloorEvaluator.class (scripted_world script)).1))).
Proof.
  intros script.
  destruct (decision_log_audit_trail BasicVacuumWorld.class
              (ScriptedAgent.class Observation script) CleanFloorEvaluator.class
              (scripted_world script)) as (Hdecisions & Hlog & _).
  - reflexivity.
  - reflexivity.
  - split; [|exact Hlog].
    etrans; [exact Hdecisions|]. vm_compute. reflexivity.
Defined.

(** The dirt status first, the location after. *)
Lemma extract_group_witness :
  _extract_environment_args
    ("--env-dirt-status" :: ["t"; "f"] ++ ["--env-agent-location"; "B"])
  = Ret ({["agent_location" := ["B"]]} ∪ {[param_name "--env-dirt-status" := ["t"; "f"]]}).
Proof.
  apply (extract_group "--env-dirt-status" ["t"; "f"] ["--env-agent-location"; "B"]).
  - reflexivity.
  - repeat constructor.
  - vm_compute. reflexivity.
Defined.

Lemma extract_constructor_arguments_witness :
  _extract_environment_args
    (("--env-agent-location" :: ["B"]) ++ ("--env-dirt-status" :: ["t"; "f"]))
  = Ret (environment_args ["B"] ["t"; "f"]).
Proof.
  destruct (extract_constructor_arguments ["B"] ["t"; "f"]) as [Hextract _].
  - repeat constructor.
  - repeat constructor.
  - exact Hextract.
Defined.

(** A flag without value at the end of the command line. *)
Lemma extract_result_invariant_witness :
  ("-"%char ∉ chars "agent_location") ∧ no_flag [].
Proof.
  apply (extract_result_invariant
           ["--env-dirt-status"; "t"; "--env-agent-location"]
           (<["agent_location" := []]> (<["dirt_status" := ["t"]]> ∅))
           "agent_location" []).
  - vm_compute. reflexivity.
  - vm_compute. reflexivity.
Defined.

Lemma command_line_to_score_witness :
  ∃ environment_args,
    _extract_environment_args
      ["--env-agent-location"; "A"; "--env-dirt-status"; "Dirty"; "clean"]
    = Ret environment_args ∧
    main BasicVacuumWorld.class (SuckyAgent.class Observation)
         CleanFloorEvaluator.class environment_args []
    = ([] ++ [LOG_HELLO]
         ++ ((fun t => LOG_AGENT_DECISION t (PyStr "SUCK")) <$> range 1 1001)
         ++ [LOG_COMPLETE; LOG_SCORE (1000 * (1 + point false))], Ret None).
Proof.
  apply (command_line_to_score "A" "Dirty" "clean" true false []).
  - apply (bool_decide_unpack _). vm_compute. exact I.
  - vm_compute. reflexivity.
  - vm_compute. reflexivity.
Defined.

(** The command line [--env-speed 3]. *)
Lemma unknown_parameter_not_reported_witness :
  ∃ args,
    isinstance_ValueError (Exc TypeError args) = false ∧
    main BasicVacuumWorld.class (SuckyAgent.class Observation)
         CleanFloorEvaluator.class {["speed" := ["3"]]} []
    = ([] ++ [LOG_HELLO], Raise (Exc TypeError args)).
Proof.
  apply (unknown_parameter_not_reported (SuckyAgent.class Observation)
           CleanFloorEvaluator.class tt {| CleanFloorEvaluator._score := 0 |}
           {["speed" := ["3"]]} "speed" ["3"] []).
  - reflexivity.
  - reflexivity.
  - vm_compute. reflexivity.
  - discriminate.
  - discriminate.
Defined.

(** The default agent name, with the globals holding the agent classes. *)
Lemma load_class_path_witness :
  let globals : gmap string string :=
    {["SuckyAgent" := "class SuckyAgent"]} in
  _load_class string (fun _ => LoadRaise (ImportError PyNone)) globals "SuckyAgent"
  = Loaded "class SuckyAgent" ∧
  _try_load_class string (fun _ => LoadRaise (ImportError PyNone)) globals
    "Sucky" "agent" []
  = ([LOG_CLASS_NOT_FOUND "agent" "Sucky"], Raise (Exc SystemExit [PyInt 1])).
Proof.
  intros globals. split.
  - destruct (load_class_path string (fun _ => LoadRaise (ImportError PyNone))
                globals "" "SuckyAgent" "agent" []) as (Hbare & _ & _).
    + apply (bool_decide_unpack _). vm_compute. exact I.
    + rewrite Hbare. vm_compute. reflexivity.
  - vm_compute. reflexivity.
Defined.

(** The plan suck, move, suck from the default initial state. *)
Lemma best_score_witness :
  let plan := [Ret (PyStr "SUCK"); Ret (PyStr "RIGHT"); Ret (PyStr "SUCK")] in
  CleanFloorEvaluator.score
    (w_eval (run_experiment BasicVacuumWorld.class
               (ScriptedAgent.class Observation plan) CleanFloorEvaluator.class
               (scripted_world plan)).1) ≤ 0 + 1998.
Proof.
  intros plan.
  destruct (best_score (ScriptedAgent.class Observation plan) (scripted_world plan))
    as (_ & Hdefault & _).
  - apply (reachable_init ["A"] ["t"; "t"]). vm_compute. reflexivity.
  - apply Hdefault. reflexivity.
Defined.
